(** * HfPyTorchModel: checkpoint store, training loop, evaluation and prediction

    A shallow embedding of [t5/models/hf_model.py].  The wrapper object's
    mutable attributes ([_model], [_step], [_writer]) together with the file
    system and the [absl] log form an explicit state; every method is a
    computation in a state-and-exception monad.  The transformer itself, the
    optimizer, the dataset pipeline, the vocabulary and the metric functions are
    external collaborators and appear as the fields of one interface. *)

From Stdlib Require Import ZArith Lia Ascii String DecimalString DecimalZ DecimalN DecimalPos.
From stdpp Require Import gmap strings list fin_maps sorting.

Local Open Scope Z_scope.

(** ** Strings as character lists *)

Definition chars (s : string) : list ascii := String.list_ascii_of_string s.
Definition of_chars (l : list ascii) : string := String.string_of_list_ascii l.

Definition newline : ascii := Ascii.ascii_of_nat 10.
Definition slash : ascii := Ascii.ascii_of_nat 47.

(** [\d] restricted to ASCII text. *)
Definition is_digit (c : ascii) : bool :=
  let n := Ascii.nat_of_ascii c in (48 <=? n)%nat && (n <=? 57)%nat.

Definition ascii_eqb (a b : ascii) : bool := bool_decide (a = b).

(** [l] with the leading [p] removed, when [l] starts with [p]. *)
Fixpoint strip_prefix (p l : list ascii) : option (list ascii) :=
  match p, l with
  | [], _ => Some l
  | _ :: _, [] => None
  | a :: p', b :: l' => if ascii_eqb a b then strip_prefix p' l' else None
  end.

Definition starts_with (p l : list ascii) : bool :=
  match strip_prefix p l with Some _ => true | None => false end.

Definition ends_with (suf l : list ascii) : bool :=
  starts_with (reverse suf) (reverse l).

Fixpoint take_while {A} (f : A → bool) (l : list A) : list A :=
  match l with
  | [] => []
  | x :: l' => if f x then x :: take_while f l' else []
  end.

(** ** Python's [str] and [int] on integers *)

(** [str(z)] for a Python [int]. *)
Definition py_str (z : Z) : string := NilZero.string_of_int (Z.to_int z).

(** [int(s)] for a string of decimal digits, the only strings the checkpoint
    regular expression hands to it. *)
Definition py_int (s : string) : option Z :=
  match s with
  | EmptyString => None
  | _ => Z.of_uint <$> NilEmpty.uint_of_string s
  end.

(** ** Paths *)

(** [CHECKPOINT_FILE_FORMAT.format(x)] *)
Definition CHECKPOINT_FILE_FORMAT (x : string) : string :=
  "model-" +:+ x +:+ ".checkpoint".

(** [os.path.join(a, b)] on POSIX. *)
Definition path_join (a b : string) : string :=
  if starts_with [slash] (chars b) then b
  else if bool_decide (a = "") || ends_with [slash] (chars a) then a +:+ b
  else a +:+ "/" +:+ b.

(** [x or y] for an optional directory argument: [None] and the empty string are
    both falsy. *)
Definition dir_or (x : option string) (y : string) : string :=
  match x with
  | Some d => if bool_decide (d = "") then y else d
  | None => y
  end.

(** ** The checkpoint regular expression

    [re.compile(".*" + CHECKPOINT_FILE_FORMAT.format(r"(\d+)")).match(path)],
    that is [.*model-(\d+).checkpoint] anchored at the start of [path] only.
    Both repetitions are greedy and backtrack; the unescaped [.] stands for any
    character but a newline, and so does each character under [.*]. *)

(** The character after the digits and the literal [checkpoint]. *)
Definition regex_tail (l : list ascii) : bool :=
  match l with
  | [] => false
  | c :: tl => negb (ascii_eqb c newline) && starts_with (chars "checkpoint") tl
  end.

(** [(\d+)] trying [k] digits first, then fewer, never none. *)
Fixpoint digits_backtrack (k : nat) (rest : list ascii) : option (list ascii) :=
  match k with
  | O => None
  | S k' =>
      if regex_tail (drop k rest) then Some (take k rest)
      else digits_backtrack k' rest
  end.

(** [model-(\d+).checkpoint] at the start of [l]; the result is group 1. *)
Definition match_here (l : list ascii) : option (list ascii) :=
  match strip_prefix (chars "model-") l with
  | None => None
  | Some rest => digits_backtrack (length (take_while is_digit rest)) rest
  end.

(** [.*] consuming [i] characters first, then fewer. *)
Fixpoint star_backtrack (i : nat) (l : list ascii) : option (list ascii) :=
  match match_here (drop i l) with
  | Some g => Some g
  | None =>
      match i with
      | O => None
      | S i' => star_backtrack i' l
      end
  end.

(** [step_regex.match(path)]: [None] when there is no match, else group 1. *)
Definition step_regex_match (path : string) : option string :=
  let l := chars path in
  of_chars <$>
    star_backtrack
      (length (take_while (λ c, negb (ascii_eqb c newline)) l)) l.

(** ** [tf.io.gfile.glob(os.path.join(model_dir, "model-*.checkpoint"))]

    The joined path is handed to the library as a pattern: the directory part
    is read as a pattern too.  The library matches a whole path against the
    whole pattern with [fnmatch] under [FNM_PATHNAME]: [*] stands for any run
    of characters other than the path separator, [?] for one such character,
    a bracket expression for one such character of its set, a backslash takes
    the next character literally, and every other character stands for
    itself.  Named character classes, equivalence classes and collating
    symbols inside brackets are not modelled. *)

Definition star : ascii := Ascii.ascii_of_nat 42.
Definition question : ascii := Ascii.ascii_of_nat 63.
Definition lbracket : ascii := Ascii.ascii_of_nat 91.
Definition rbracket : ascii := Ascii.ascii_of_nat 93.
Definition backslash : ascii := Ascii.ascii_of_nat 92.
Definition bang : ascii := Ascii.ascii_of_nat 33.
Definition caret : ascii := Ascii.ascii_of_nat 94.
Definition dash : ascii := Ascii.ascii_of_nat 45.

(** The characters that make a path a pattern. *)
Definition glob_special (c : ascii) : bool :=
  ascii_eqb c star || ascii_eqb c question || ascii_eqb c lbracket
  || ascii_eqb c backslash.

(** A directory name that stands for itself in a pattern. *)
Definition glob_literal (model_dir : string) : Prop :=
  Forall (λ c, glob_special c = false) (chars model_dir).

(** The ranges of a bracket expression up to its closing bracket, and the
    pattern after it; [None] when the bracket is not closed within the path
    component.  A closing bracket in the [first] position is a member. *)
Fixpoint bracket_members (first : bool) (pat : list ascii)
    : option (list (ascii * ascii) * list ascii) :=
  match pat with
  | [] => None
  | c :: pat' =>
      if ascii_eqb c slash then None
      else if ascii_eqb c rbracket && negb first then Some ([], pat')
      else if ascii_eqb c backslash then
        match pat' with
        | d :: pat'' =>
            if ascii_eqb d slash then None
            else (λ mr, ((d, d) :: mr.1, mr.2)) <$> bracket_members false pat''
        | [] => None
        end
      else
        match pat' with
        | d :: hi :: pat'' =>
            if ascii_eqb d dash && negb (ascii_eqb hi rbracket)
               && negb (ascii_eqb hi slash) then
              (λ mr, ((c, hi) :: mr.1, mr.2)) <$> bracket_members false pat''
            else
              (λ mr, ((c, c) :: mr.1, mr.2)) <$> bracket_members false pat'
        | _ => (λ mr, ((c, c) :: mr.1, mr.2)) <$> bracket_members false pat'
        end
  end.

Definition in_range (c : ascii) (r : ascii * ascii) : bool :=
  (Ascii.nat_of_ascii r.1 <=? Ascii.nat_of_ascii c)%nat
  && (Ascii.nat_of_ascii c <=? Ascii.nat_of_ascii r.2)%nat.

(** [fnmatch(pat, l, FNM_PATHNAME) == 0]; every step consumes a character of
    the pattern or of the path, so [fuel] above their joint length is
    enough. *)
Fixpoint fnmatch (fuel : nat) (pat l : list ascii) : bool :=
  match fuel with
  | O => false
  | S fuel' =>
      let literal (p : ascii) (pat' : list ascii) :=
        match l with
        | c :: l' => ascii_eqb p c && fnmatch fuel' pat' l'
        | [] => false
        end in
      let one (ok : ascii → bool) (pat' : list ascii) :=
        match l with
        | c :: l' => negb (ascii_eqb c slash) && ok c && fnmatch fuel' pat' l'
        | [] => false
        end in
      match pat with
      | [] => match l with [] => true | _ :: _ => false end
      | p :: pat' =>
          if ascii_eqb p star then
            fnmatch fuel' pat' l || one (λ _, true) pat
          else if ascii_eqb p question then one (λ _, true) pat'
          else if ascii_eqb p lbracket then
            let negated :=
              match pat' with
              | n :: _ => ascii_eqb n bang || ascii_eqb n caret
              | [] => false
              end in
            let body := if negated then drop 1 pat' else pat' in
            match bracket_members true body with
            | Some (members, rest) =>
                one (λ c, xorb negated (existsb (in_range c) members)) rest
            | None => literal p pat'
            end
          else if ascii_eqb p backslash then
            match pat' with
            | q :: pat'' => literal q pat''
            | [] => false
            end
          else literal p pat'
      end
  end.

(** The file system is a flat map from paths to files; [glob_checkpoint]
    tells whether the pattern of [model_dir] selects [path].  The map holds
    files only: a directory whose name fits the pattern is listed by the
    library as well, and the map cannot show it.  Facts that need nothing
    else to be listed are therefore stated from what the listing returned,
    not from the map. *)
Definition glob_checkpoint (model_dir path : string) : bool :=
  let pat := chars (path_join model_dir (CHECKPOINT_FILE_FORMAT "*")) in
  fnmatch (S (length pat + length (chars path))) pat (chars path).

(** ** Exceptions and the data model *)

Inductive Exn :=
| ValueError (msg : string)
| TypeError (msg : string)
| KeyError (key : string)
| AttributeError (msg : string)
| ZeroDivisionError
| UnboundLocalError (var : string)
| FileNotFoundError (path : string)
| UnpicklingError (path : string)
| RuntimeError (msg : string).

(** The value of one feature of one example: a row of token ids, or the bytes
    of a plain-text feature. *)
Inductive Feature :=
| Tokens (row : list Z)
| Plain (text : string).

(** An example maps feature names to values; a batch maps them to columns with
    one entry per example. *)
Abbreviation Example := (gmap string Feature).
Abbreviation Batch := (gmap string (list Feature)).
Abbreviation SeqLen := (gmap string Z).

(** Computations that may raise but touch no state. *)
Abbreviation Result := (sum Exn).

#[global] Instance Result_ret : MRet Result := λ A a, inr a.
#[global] Instance Result_bind : MBind Result := λ A B f m,
  match m with
  | inl e => inl e
  | inr a => f a
  end.

Fixpoint mapM_result {A B} (f : A → Result B) (l : list A) : Result (list B) :=
  match l with
  | [] => inr []
  | x :: l' => y ← f x; ys ← mapM_result f l'; mret (y :: ys)
  end.

(** ** Tasks and mixtures of [t5.data] *)

Section Registry.
Context {Score : Type}.

Record Task := {
  name : string;
  sentencepiece_model_path : string;
  splits : list string;
  output_features : list string;
  metric_fns : list (list string → list string → list (string * Score));
  (** [postprocess_fn(text, example=ex, is_target=b)] *)
  postprocess_fn : string → Example → bool → string;
  (** [task.get_dataset(sequence_length, split)] *)
  task_dataset : SeqLen → string → Result (list Example);
}.

Record Mixture := {
  tasks : list Task;
  mixture_sentencepiece_model_path : string;
  mixture_output_features : list string;
  mixture_dataset : SeqLen → string → Result (list Example);
}.

Inductive MixtureOrTask :=
| IsTask (t : Task)
| IsMixture (m : Mixture).
End Registry.

Arguments Task : clear implicits.
Arguments Mixture : clear implicits.
Arguments MixtureOrTask : clear implicits.

(** ** External collaborators *)

Class External := {
  (** a [state_dict] *)
  Params : Type;
  (** optimizer together with its learning-rate scheduler *)
  OptState : Type;
  Loss : Type;
  Score : Type;
  (** [**generate_kwargs] *)
  GenKw : Type;
  (** [t5.data.get_mixture_or_task] *)
  get_mixture_or_task : string → option (MixtureOrTask Score);
  (** [zero_grad], the forward pass on [input_ids], [attention_mask],
      [decoder_attention_mask] and [lm_labels], [backward] and
      [optimizer.step] *)
  model_step :
    Params → OptState → list Feature → list Feature → list Feature →
    list Feature → Params * OptState * Loss;
  (** [learning_rate_scheduler.step()] *)
  scheduler_step : OptState → OptState;
  (** [self._model.generate(input_ids=.., **generate_kwargs)]; the first
      argument is the module's training flag *)
  generate : bool → Params → GenKw → list Feature → list (list Z);
  (** [load_state_dict]: the parameters afterwards and the error it raised,
      if any *)
  load_state_dict : Params → Params → Params * option string;
  (** [SentencePieceVocabulary(path).decode] and [.encode_tf] *)
  vocab_decode : string → list Z → string;
  vocab_encode : string → string → list Z;
  (** the per-feature padding of [pack_or_pad(.., pack=False,
      ensure_eos=True)] *)
  trim_and_pad : SeqLen → string → list Z → list Z;
  (** [str] of a feature value *)
  feature_str : Feature → string;
  (** [t5.data.DEFAULT_SPM_PATH] *)
  DEFAULT_SPM_PATH : string;
}.

(** ** The dataset pipeline *)

Section Pipeline.
Context `{External}.

(** [pack_or_pad] without packing: the listed features are padded, the others
    pass through unchanged.  The library takes [feature_keys or] all the
    features of the dataset, so an empty list stands for every feature. *)
Definition pack_or_pad (sequence_length : SeqLen)
    (feature_keys : list string) (ex : Example) : Example :=
  let feature_keys :=
    match feature_keys with
    | [] => (map_to_list ex).*1
    | _ => feature_keys
    end in
  foldl (λ ex key,
           match ex !! key with
           | Some (Tokens row) =>
               <[key := Tokens (trim_and_pad sequence_length key row)]> ex
           | _ => ex
           end) ex feature_keys.

(** [tf.cast(tf.greater(tensor, 0), tensor.dtype)] *)
Definition mask_of (tensor : Feature) : Result Feature :=
  match tensor with
  | Tokens row => inr (Tokens ((λ t, if bool_decide (0 < t) then 1 else 0) <$> row))
  | Plain _ => inl (TypeError "greater: string tensor")
  end.

Fixpoint _map_fn (output_features : list string) (ex : Example)
    : Result Example :=
  match output_features with
  | [] => inr ex
  | key :: keys =>
      match ex !! key with
      | None => inl (KeyError key)
      | Some tensor =>
          mask ← mask_of tensor;
          _map_fn keys (<[key +:+ "_mask" := mask]> ex)
      end
  end.

(** The groups of [dataset.batch(n, drop_remainder=False)]. *)
Fixpoint chunks_aux {A} (fuel n : nat) (l : list A) : list (list A) :=
  match fuel, l with
  | O, _ | _, [] => []
  | S fuel', _ => take n l :: chunks_aux fuel' n (drop n l)
  end.
Definition chunks {A} (n : nat) (l : list A) : list (list A) :=
  chunks_aux (length l) n l.

(** One batch from a group of examples of one structure. *)
Definition stack (group : list Example) : Batch :=
  match group with
  | [] => ∅
  | ex :: _ => map_imap (λ key _, Some (omap (λ e : Example, e !! key) group)) ex
  end.

(** The element structure of a [tf.data] pipeline is static, so a failing
    map function fails when the pipeline is built. *)
Definition tokens_to_batches (dataset : list Example)
    (sequence_length : SeqLen) (batch_size : Z)
    (output_features : list string) : Result (list Batch) :=
  let dataset := pack_or_pad sequence_length output_features <$> dataset in
  dataset ← mapM_result (_map_fn output_features) dataset;
  if bool_decide (batch_size ≤ 0)
  then inl (ValueError "batch_size must be greater than zero")
  else inr (stack <$> chunks (Z.to_nat batch_size) dataset).

Definition get_dataset (mixture_or_task_name : string)
    (sequence_length : SeqLen) (split : string) (batch_size : Z)
    : Result (list Batch) :=
  match get_mixture_or_task mixture_or_task_name with
  | None => inl (ValueError "No Task or Mixture found")
  | Some (IsTask task) =>
      ds ← task_dataset task sequence_length split;
      tokens_to_batches ds sequence_length batch_size (output_features task)
  | Some (IsMixture mix) =>
      ds ← mixture_dataset mix sequence_length split;
      tokens_to_batches ds sequence_length batch_size
        (mixture_output_features mix)
  end.

(** [[dict(zip(batch, t)) for t in zip( *batch.values())]] *)
Definition _unbatch (batch : Batch) : list Example :=
  let rows :=
    match (map_to_list batch).*2 with
    | [] => O
    | col :: cols => foldr (λ c n, Nat.min (length c) n) (length col) cols
    end in
  (λ i, omap (λ col : list Feature, col !! i) batch) <$> seq 0 rows.
End Pipeline.

(** ** The wrapper object and its world *)

Section Wrapper.
Context `{External}.

Inductive File :=
| Checkpoint (state_dict : Params)
| TextFile (content : string).

Inductive ScalarValue :=
| LossValue (l : Loss)
| StepsPerSecond
| MetricValue (v : Score).

(** One [add_scalar(tag, value, global_step)]. *)
Record Scalar := {
  tag : string;
  value : ScalarValue;
  global_step : Z;
}.

Inductive LogMsg :=
| LogInfo (msg : string)
| LogMetric (tag : string) (step : Z) (v : Score)
| LogPrediction (inp pred : string).

Record Wrapper := {
  _model : Params;
  (** the module's training flag, set by [.train()] and [.eval()] *)
  training : bool;
  _model_dir : string;
  _step : Z;
  _writer : list Scalar;
  files : gmap string File;
  logs : list LogMsg;
}.

Definition with_model (p : Params) (s : Wrapper) : Wrapper :=
  {| _model := p; training := training s; _model_dir := _model_dir s;
     _step := _step s; _writer := _writer s; files := files s;
     logs := logs s |}.
Definition with_training (b : bool) (s : Wrapper) : Wrapper :=
  {| _model := _model s; training := b; _model_dir := _model_dir s;
     _step := _step s; _writer := _writer s; files := files s;
     logs := logs s |}.
Definition with_step (z : Z) (s : Wrapper) : Wrapper :=
  {| _model := _model s; training := training s; _model_dir := _model_dir s;
     _step := z; _writer := _writer s; files := files s; logs := logs s |}.
Definition with_writer (w : list Scalar) (s : Wrapper) : Wrapper :=
  {| _model := _model s; training := training s; _model_dir := _model_dir s;
     _step := _step s; _writer := w; files := files s; logs := logs s |}.
Definition with_files (f : gmap string File) (s : Wrapper) : Wrapper :=
  {| _model := _model s; training := training s; _model_dir := _model_dir s;
     _step := _step s; _writer := _writer s; files := f; logs := logs s |}.
Definition with_logs (l : list LogMsg) (s : Wrapper) : Wrapper :=
  {| _model := _model s; training := training s; _model_dir := _model_dir s;
     _step := _step s; _writer := _writer s; files := files s; logs := l |}.

(** *** The monad of methods *)

Definition Py (A : Type) : Type := Wrapper → Result A * Wrapper.

#[global] Instance Py_ret : MRet Py := λ A a s, (inr a, s).
#[global] Instance Py_bind : MBind Py := λ A B f m s,
  match m s with
  | (inr a, s') => f a s'
  | (inl e, s') => (inl e, s')
  end.

Definition raise {A} (e : Exn) : Py A := λ s, (inl e, s).
Definition self : Py Wrapper := λ s, (inr s, s).
Definition update (f : Wrapper → Wrapper) : Py () := λ s, (inr (), f s).
Definition lift {A} (r : Result A) : Py A := λ s, (r, s).

(** [for x in l: body x] *)
Fixpoint for_each {A} (l : list A) (body : A → Py ()) : Py () :=
  match l with
  | [] => mret ()
  | x :: l' => body x;; for_each l' body
  end.

(** A list comprehension whose element expression may raise. *)
Fixpoint mapM {A B} (f : A → Py B) (l : list A) : Py (list B) :=
  match l with
  | [] => mret []
  | x :: l' => y ← f x; ys ← mapM f l'; mret (y :: ys)
  end.

Definition logging_info (m : LogMsg) : Py () :=
  update (λ s, with_logs (logs s ++ [m]) s).

Definition add_scalar (t : string) (v : ScalarValue) (step : Z) : Py () :=
  update (λ s, with_writer
                 (_writer s ++ [{| tag := t; value := v; global_step := step |}]) s).

(** [torch.save(obj, path)] *)
Definition torch_save (obj : Params) (path : string) : Py () :=
  update (λ s, with_files (<[path := Checkpoint obj]> (files s)) s).

(** [torch.load(path)] *)
Definition torch_load (path : string) : Py Params :=
  s ← self;
  match files s !! path with
  | None => raise (FileNotFoundError path)
  | Some (TextFile _) => raise (UnpicklingError path)
  | Some (Checkpoint state_dict) => mret state_dict
  end.

(** [self._model.load_state_dict(state_dict)] *)
Definition model_load_state_dict (state_dict : Params) : Py () :=
  s ← self;
  let '(p, err) := load_state_dict (_model s) state_dict in
  update (with_model p);;
  match err with
  | Some msg => raise (RuntimeError msg)
  | None => mret ()
  end.

(** [tf.io.gfile.glob] on the checkpoint pattern; the order is the file
    system's. *)
Definition glob_checkpoints (model_dir : string) : Py (list string) :=
  s ← self;
  mret (filter (λ path, glob_checkpoint model_dir path = true)
          (map_to_list (files s)).*1).

(** *** The checkpoint store *)

Definition checkpoint_path (model_dir : string) (step : Z) : string :=
  path_join model_dir (CHECKPOINT_FILE_FORMAT (py_str step)).

Definition save_checkpoint (step : Z) : Py () :=
  s ← self;
  let path := checkpoint_path (_model_dir s) step in
  torch_save (_model s) path.

Definition load_checkpoint (step : Z) (model_dir : option string) : Py () :=
  s ← self;
  let model_dir := dir_or model_dir (_model_dir s) in
  let path := checkpoint_path model_dir step in
  logging_info (LogInfo ("Loading from " +:+ path));;
  state_dict ← torch_load path;
  model_load_state_dict state_dict;;
  update (with_step step).

Definition get_all_checkpoint_steps (model_dir : option string)
    : Py (option (list Z)) :=
  s ← self;
  let model_dir := dir_or model_dir (_model_dir s) in
  checkpoint_files ← glob_checkpoints model_dir;
  match checkpoint_files with
  | [] => mret None
  | _ =>
      steps ← mapM (λ path,
                 match step_regex_match path with
                 | None =>
                     raise (AttributeError
                              "'NoneType' object has no attribute 'group'")
                 | Some group1 =>
                     match py_int group1 with
                     | Some z => mret z
                     | None => raise (ValueError "invalid literal for int()")
                     end
                 end) checkpoint_files;
      mret (Some (merge_sort Z.le steps))
  end.

(** [max(steps)] *)
Definition py_max (steps : list Z) : Py Z :=
  match steps with
  | [] => raise (ValueError "max() arg is an empty sequence")
  | z :: zs => mret (foldl Z.max z zs)
  end.

Definition get_latest_checkpoint_step (model_dir : option string)
    : Py (option Z) :=
  steps ← get_all_checkpoint_steps model_dir;
  match steps with
  | Some steps => latest ← py_max steps; mret (Some latest)
  | None => mret None
  end.

Definition load_latest_checkpoint : Py () :=
  latest_step ← get_latest_checkpoint_step None;
  match latest_step with
  | Some latest_step => load_checkpoint latest_step None
  | None => mret ()
  end.
End Wrapper.

(** ** The training loop *)

Section Train.
Context `{External}.

(** [itertools.islice(itertools.cycle(ds), n)]: [cur] is what is left of the
    current pass.  An empty [ds] yields nothing at all. *)
Fixpoint cycle_take {A} (n : nat) (cur ds : list A) : list A :=
  match n with
  | O => []
  | S n' =>
      match cur with
      | x :: cur' => x :: cycle_take n' cur' ds
      | [] =>
          match ds with
          | [] => []
          | x :: cur' => x :: cycle_take n' cur' ds
          end
      end
  end.

(** [enumerate], counting from [i]. *)
Fixpoint enumerate_from {A} (i : Z) (l : list A) : list (Z * A) :=
  match l with
  | [] => []
  | x :: l' => (i, x) :: enumerate_from (i + 1) l'
  end.
Definition enumerate {A} (l : list A) : list (Z * A) := enumerate_from 0 l.

(** A [for] loop that rebinds local variables, kept in [acc]. *)
Fixpoint for_fold {A S} (l : list A) (acc : S) (body : S → A → Py S)
    : Py S :=
  match l with
  | [] => mret acc
  | x :: l' => acc' ← body acc x; for_fold l' acc' body
  end.

(** [batch[key]] *)
Definition batch_get (batch : Batch) (key : string) : Py (list Feature) :=
  match batch !! key with
  | Some col => mret col
  | None => raise (KeyError key)
  end.

(** [a % b] on Python integers. *)
Definition py_mod (a b : Z) : Py Z :=
  if bool_decide (b = 0) then raise ZeroDivisionError else mret (a `mod` b).

(** The body of the training loop.  The local variables are [train_step]
    (unbound before the first iteration) and the optimizer. *)
Definition train_body (save_steps : Z) (scheduled : bool)
    (locals : option Z * OptState) (item : Z * Batch)
    : Py (option Z * OptState) :=
  let optimizer := locals.2 in
  let '(train_step, batch) := item in
  r ← py_mod train_step save_steps;
  (if bool_decide (r = 0) then
     s ← self;
     logging_info (LogInfo ("Saving checkpoint for step " +:+ py_str (_step s)));;
     save_checkpoint (_step s)
   else mret ());;
  input_ids ← batch_get batch "inputs";
  attention_mask ← batch_get batch "inputs_mask";
  decoder_attention_mask ← batch_get batch "targets_mask";
  lm_labels ← batch_get batch "targets";
  s ← self;
  let '(p, optimizer, loss) :=
    model_step (_model s) optimizer input_ids attention_mask
      decoder_attention_mask lm_labels in
  update (with_model p);;
  let optimizer := if scheduled then scheduler_step optimizer else optimizer in
  add_scalar "loss" (LossValue loss) (_step s);;
  add_scalar "step/s" StepsPerSecond (_step s);;
  update (λ s, with_step (_step s + 1) s);;
  mret (Some train_step, optimizer).

Definition train (mixture_or_task_name : string) (steps save_steps : Z)
    (sequence_length : SeqLen) (split : string) (batch_size : Z)
    (optimizer : Params → OptState)
    (learning_rate_scheduler : option (OptState → OptState)) : Py () :=
  update (with_training true);;
  ds ← lift (get_dataset mixture_or_task_name sequence_length split batch_size);
  s ← self;
  let optimizer := optimizer (_model s) in
  let optimizer :=
    match learning_rate_scheduler with
    | Some scheduler => scheduler optimizer
    | None => optimizer
    end in
  if bool_decide (steps < 0)
  then raise (ValueError "Stop argument for islice() must be None or an integer: 0 <= x <= sys.maxsize.")
  else
    locals ← for_fold (enumerate (cycle_take (Z.to_nat steps) ds ds))
               (None, optimizer)
               (train_body save_steps (bool_decide (is_Some learning_rate_scheduler)));
    match locals.1 with
    | None => raise (UnboundLocalError "train_step")
    | Some train_step =>
        r ← py_mod train_step save_steps;
        if bool_decide (r ≠ 0) then
          s ← self;
          logging_info
            (LogInfo ("Saving final checkpoint for step " +:+ py_str (_step s)));;
          save_checkpoint (_step s)
        else mret ()
    end.
End Train.

(** ** Evaluation and prediction *)

(** The dynamically typed [checkpoint_steps] argument of [eval]. *)
Inductive PyArg :=
| PyNone
| PyInt (z : Z)
| PyStr (s : string)
| PyList (l : list Z)
| PyTuple (l : list Z)
| PyOther (repr : string).

(** The [inputs] argument of [predict]: a list of strings or a path. *)
Inductive PredictInputs :=
| InputList (l : list string)
| InputPath (path : string).

Definition nl : string := String newline "".

(** [sep.join(lines)] *)
Definition join_lines (lines : list string) : string := String.concat nl lines.

Definition is_space (c : ascii) : bool :=
  let n := Ascii.nat_of_ascii c in
  bool_decide (n = 32%nat) || ((9 <=? n)%nat && (n <=? 13)%nat).

Fixpoint drop_while {A} (f : A → bool) (l : list A) : list A :=
  match l with
  | [] => []
  | x :: l' => if f x then drop_while f l' else l
  end.

(** [l.strip()] *)
Definition py_strip (l : list ascii) : list ascii :=
  reverse (drop_while is_space (reverse (drop_while is_space l))).

(** The lines a text file yields when iterated, terminators included. *)
Fixpoint file_lines (cur : list ascii) (l : list ascii) : list (list ascii) :=
  match l with
  | [] => match cur with [] => [] | _ => [reverse cur] end
  | c :: l' =>
      if ascii_eqb c newline then reverse (c :: cur) :: file_lines [] l'
      else file_lines (c :: cur) l'
  end.

Section Eval.
Context `{External}.

(** [write_lines_to_file]; the lines are already [str]ings. *)
Definition write_lines_to_file (lines : list string) (filename : string)
    : Py () :=
  s ← self;
  (if bool_decide (is_Some (files s !! filename))
   then update (λ s, with_files (delete filename (files s)) s)
   else mret ());;
  update (λ s, with_files (<[filename := TextFile (join_lines lines)]> (files s)) s).

(** [ex[key]] *)
Definition example_get (ex : Example) (key : string) : Py Feature :=
  match ex !! key with
  | Some v => mret v
  | None => raise (KeyError key)
  end.

(** [tf.compat.as_text] *)
Definition as_text (v : Feature) : Py string :=
  match v with
  | Plain text => mret text
  | Tokens _ => raise (TypeError "Expected binary or unicode string")
  end.

(** The body of the loop that caches targets and examples; the local
    variables are [cached_targets] and [cached_examples]. *)
Definition cache_task (sequence_length : SeqLen) (batch_size : Z)
    (split summary_dir : string)
    (cached : gmap string (list string) * gmap string (list Batch))
    (task : Task Score)
    : Py (gmap string (list string) * gmap string (list Batch)) :=
  match metric_fns task with
  | [] => mret cached
  | _ =>
      batches ← lift (get_dataset (name task) sequence_length split batch_size);
      match batches with
      | [] =>
          raise (ValueError ("The '" +:+ split +:+ "' split of "
                             +:+ name task +:+ " is empty."))
      | _ =>
          let examples := batches ≫= _unbatch in
          targets ← mapM (λ ex,
                       v ← example_get ex "targets_plaintext";
                       text ← as_text v;
                       mret (postprocess_fn task text ex true)) examples;
          let targets_filename :=
            path_join summary_dir (name task +:+ "_targets") in
          write_lines_to_file targets targets_filename;;
          let inputs_filename :=
            path_join summary_dir (name task +:+ "_inputs") in
          inputs ← mapM (λ ex, example_get ex "inputs_plaintext") examples;
          write_lines_to_file (feature_str <$> inputs) inputs_filename;;
          mret (<[name task := targets]> cached.1,
                <[name task := batches]> cached.2)
      end
  end.

(** [cached[key]] *)
Definition cache_get {A} (cached : gmap string A) (key : string) : Py A :=
  match cached !! key with
  | Some v => mret v
  | None => raise (KeyError key)
  end.

Definition count_mismatch (targets predictions : nat) : string :=
  "#targets (" +:+ py_str (Z.of_nat targets) +:+ ") != #predictions ("
  +:+ py_str (Z.of_nat predictions) +:+ ")".

(** The body of the loop over tasks in [_eval_current_model]. *)
Definition eval_task (vocab summary_dir : string) (generate_kwargs : GenKw)
    (cached_targets : gmap string (list string))
    (cached_examples : gmap string (list Batch)) (task : Task Score)
    : Py () :=
  ds ← cache_get cached_examples (name task);
  targets ← cache_get cached_targets (name task);
  predictions ← for_fold ds [] (λ predictions batch,
    input_ids ← batch_get batch "inputs";
    s ← self;
    let predicted_tokens :=
      generate (training s) (_model s) generate_kwargs input_ids in
    mret (predictions ++
            ((λ '(p, ex), postprocess_fn task (vocab_decode vocab p) ex false)
               <$> zip predicted_tokens (_unbatch batch))));
  if bool_decide (length targets ≠ length predictions) then
    raise (ValueError (count_mismatch (length targets) (length predictions)))
  else
    s ← self;
    let predictions_file :=
      path_join summary_dir
        (name task +:+ "_" +:+ py_str (_step s) +:+ "_predictions") in
    write_lines_to_file predictions predictions_file;;
    for_each (metric_fns task) (λ metric_fn,
      let scores := metric_fn targets predictions in
      for_each scores (λ '(metric_name, metric_value),
        let tag := "eval/" +:+ name task +:+ "/" +:+ metric_name in
        s ← self;
        add_scalar tag (MetricValue metric_value) (_step s);;
        logging_info (LogMetric tag (_step s) metric_value))).

Definition _eval_current_model (vocab summary_dir : string)
    (generate_kwargs : GenKw) (tasks : list (Task Score))
    (cached_targets : gmap string (list string))
    (cached_examples : gmap string (list Batch)) : Py () :=
  update (with_training false);;
  for_each tasks
    (eval_task vocab summary_dir generate_kwargs cached_targets cached_examples).

Definition skip_notice : LogMsg :=
  LogInfo "Task {task.name} has no '{split}' split; skipping eval.".

Definition eval (mixture_or_task_name : string) (sequence_length : SeqLen)
    (batch_size : Z) (checkpoint_steps : PyArg) (summary_dir : option string)
    (split : string) (generate_kwargs : GenKw) : Py () :=
  mixture_or_task ←
    match get_mixture_or_task mixture_or_task_name with
    | Some m => mret m
    | None => raise (ValueError "No Task or Mixture found")
    end;
  let vocab :=
    match mixture_or_task with
    | IsMixture m => mixture_sentencepiece_model_path m
    | IsTask t => sentencepiece_model_path t
    end in
  let tasks :=
    match mixture_or_task with
    | IsMixture m => tasks m
    | IsTask t => [t]
    end in
  for_each tasks (λ task,
    if bool_decide (split ∉ splits task) then logging_info skip_notice
    else mret ());;
  let tasks := filter (λ task, split ∈ splits task) tasks in
  s ← self;
  let summary_dir :=
    dir_or summary_dir (path_join (_model_dir s) (split +:+ "_eval")) in
  cached ← for_fold tasks (∅, ∅)
              (cache_task sequence_length batch_size split summary_dir);
  let _eval_current_model :=
    _eval_current_model vocab summary_dir generate_kwargs tasks
      cached.1 cached.2 in
  let run (steps : list Z) :=
    for_each steps (λ checkpoint_step,
      load_checkpoint checkpoint_step None;; _eval_current_model) in
  match checkpoint_steps with
  | PyNone => _eval_current_model
  | PyInt z => run [z]
  | PyStr s =>
      if bool_decide (s = "all") then
        steps ← get_all_checkpoint_steps None;
        match steps with
        | Some steps => run steps
        | None => raise (TypeError "'NoneType' object is not iterable")
        end
      else
        raise (ValueError
                 ("checkpoint_steps must be None, int or list; got " +:+ s))
  | PyList l | PyTuple l => run l
  | PyOther repr =>
      raise (ValueError
               ("checkpoint_steps must be None, int or list; got " +:+ repr))
  end.

(** An empty list makes [from_tensor_slices] a dataset of [float32], on
    which tracing [encode_tf] raises a type error as the pipeline is built;
    the text of the message is the library's. *)
Definition predict (inputs : PredictInputs) (sequence_length : SeqLen)
    (batch_size : Z) (output_file : option string)
    (sentencepiece_model_path : option string) (generate_kwargs : GenKw)
    : Py () :=
  inputs ←
    match inputs with
    | InputList l => mret l
    | InputPath path =>
        s ← self;
        match files s !! path with
        | None =>
            raise (ValueError
                     ("A str was provided for `inputs`, but the path " +:+ path
                      +:+ " does not exist. If you want the model's output for {inputs}, you should feed in inputs=['{inputs}']"))
        | Some (TextFile content) =>
            mret ((λ l, of_chars (py_strip l)) <$> file_lines [] (chars content))
        | Some (Checkpoint _) =>
            raise (ValueError "'utf-8' codec can't decode")
        end
    end;
  let vocab :=
    match sentencepiece_model_path with
    | None => DEFAULT_SPM_PATH
    | Some path => path
    end in
  dataset ←
    match inputs with
    | [] => raise (TypeError "Expected string, got float32")
    | _ =>
        mret ((λ ex, {["inputs" := Tokens (vocab_encode vocab ex)]} : Example)
                <$> inputs)
    end;
  dataset ← lift (tokens_to_batches dataset sequence_length batch_size ["inputs"]);
  predictions ← for_fold dataset [] (λ predictions batch,
    input_ids ← batch_get batch "inputs";
    s ← self;
    let predicted_tokens :=
      generate (training s) (_model s) generate_kwargs input_ids in
    mret (predictions ++ (vocab_decode vocab <$> predicted_tokens)));
  for_each (zip inputs predictions) (λ '(inp, pred),
    logging_info (LogPrediction inp pred));;
  match output_file with
  | Some output_file => write_lines_to_file predictions output_file
  | None => mret ()
  end.
End Eval.

(** ** A small concrete world

    A model whose parameters count the updates applied to it, a vocabulary that
    maps characters to their codes, and a registry with one task and one
    mixture.  The concrete runs below are carried out in it. *)

Module Toy.
Definition encode (s : string) : list Z :=
  (λ c, Z.of_nat (Ascii.nat_of_ascii c)) <$> chars s.
Definition decode (l : list Z) : string :=
  of_chars ((λ z, Ascii.ascii_of_nat (Z.to_nat z)) <$> l).

Definition row_of (v : Feature) : list Z :=
  match v with
  | Tokens row => row
  | Plain text => encode text
  end.

Definition example (inp tgt : string) : Example :=
  {[ "inputs" := Tokens (encode inp); "targets" := Tokens (encode tgt);
     "inputs_plaintext" := Plain inp; "targets_plaintext" := Plain tgt ]}.

Definition accuracy (targets predictions : list string) : list (string * Z) :=
  [("accuracy",
    Z.of_nat (length (filter (λ tp, tp.1 = tp.2) (zip targets predictions))))].

Definition copy_task : Task Z :=
  {| name := "copy";
     sentencepiece_model_path := "spm.model";
     splits := ["train"; "validation"];
     output_features := ["inputs"; "targets"];
     metric_fns := [accuracy];
     postprocess_fn := λ text _ _, text;
     task_dataset := λ _ split,
       if bool_decide (split ∈ ["train"; "validation"])
       then inr [example "ab" "ab"; example "cd" "dc"; example "e" "e"]
       else inl (ValueError "unknown split") |}.

Definition copy_mixture : Mixture Z :=
  {| tasks := [copy_task];
     mixture_sentencepiece_model_path := "spm.model";
     mixture_output_features := ["inputs"; "targets"];
     mixture_dataset := task_dataset copy_task |}.

#[export] Instance world : External :=
  {| Params := nat;
     OptState := nat;
     Loss := nat;
     Score := Z;
     GenKw := unit;
     get_mixture_or_task := λ n,
       if bool_decide (n = "copy") then Some (IsTask copy_task)
       else if bool_decide (n = "copy_mix") then Some (IsMixture copy_mixture)
       else None;
     model_step := λ p opt _ _ _ _, (S p, S opt, p);
     scheduler_step := λ opt, opt;
     generate := λ _ _ _ col, row_of <$> col;
     load_state_dict := λ _ sd, (sd, None);
     vocab_decode := λ _, decode;
     vocab_encode := λ _, encode;
     trim_and_pad := λ _ _ row, row;
     feature_str := λ v, match v with Plain t => t | Tokens _ => "" end;
     DEFAULT_SPM_PATH := "spm.model" |}.

(** A freshly constructed wrapper over an empty model directory. *)
Definition fresh : Wrapper :=
  {| _model := O; training := false; _model_dir := "/tmp/hft5"; _step := 0;
     _writer := []; files := ∅; logs := [] |}.

Definition lengths : SeqLen := {[ "inputs" := 8; "targets" := 8 ]}.

(** The training batches of the task, two examples each. *)
Definition batches : list Batch :=
  match get_dataset "copy" lengths "train" 2 with
  | inr ds => ds
  | inl _ => []
  end.

(** A wrapper whose directory holds the checkpoints of steps 7 and 3. *)
Definition saved : Wrapper :=
  {| _model := O; training := false; _model_dir := "/tmp/hft5"; _step := 0;
     _writer := [];
     files := {[ "/tmp/hft5/model-7.checkpoint" := Checkpoint 7%nat;
                 "/tmp/hft5/model-3.checkpoint" := Checkpoint 3%nat ]};
     logs := [] |}.

(** Four examples in two batches, and five targets. *)
Definition four_examples : list Batch :=
  [stack [example "a" "a"; example "b" "b"];
   stack [example "c" "c"; example "d" "d"]].
Definition five_targets : list string := ["a"; "b"; "c"; "d"; "e"].
End Toy.

(** ** Notions used to state the properties *)

Section Notions.
Context `{External}.

(** A batch the training step can consume: the four columns it reads. *)
Definition trainable (batch : Batch) : Prop :=
  is_Some (batch !! "inputs") ∧ is_Some (batch !! "inputs_mask")
  ∧ is_Some (batch !! "targets_mask") ∧ is_Some (batch !! "targets").

#[global] Instance trainable_dec batch : Decision (trainable batch).
Proof. unfold trainable. apply _. Defined.

(** The step counters at which a loop of [n] iterations saves, when its
    first loop index is [i] and the counter is [step]. *)
Fixpoint save_points (save_steps i step : Z) (n : nat) : list Z :=
  match n with
  | O => []
  | S n' =>
      (if bool_decide (i `mod` save_steps = 0) then [step] else [])
      ++ save_points save_steps (i + 1) (step + 1) n'
  end.

(** The file system after a sequence of checkpoint saves. *)
Definition insert_checkpoints (model_dir : string)
    (saves : list (Z * Params)) (fs : gmap string File) : gmap string File :=
  foldl (λ fs zp, <[checkpoint_path model_dir zp.1 := Checkpoint zp.2]> fs)
    fs saves.

Definition saving_notice (z : Z) : LogMsg :=
  LogInfo ("Saving checkpoint for step " +:+ py_str z).

(** The predictions [eval_task] collects for a task from its cached
    batches. *)
Definition task_predictions (vocab : string) (generate_kwargs : GenKw)
    (task : Task Score) (s : Wrapper) (ds : list Batch) : list string :=
  ds ≫= λ batch,
    (λ '(p, ex), postprocess_fn task (vocab_decode vocab p) ex false)
      <$> zip (generate (training s) (_model s) generate_kwargs
                 (default [] (batch !! "inputs")))
              (_unbatch batch).

(** What determines an evaluation: the parameters, the step counter and the
    model directory. *)
Definition view (s : Wrapper) : Params * Z * string :=
  (_model s, _step s, _model_dir s).

(** Two states an evaluation cannot tell apart; when [strict] they also
    agree on the training flag. *)
Definition sim (strict : bool) (s t : Wrapper) : Prop :=
  view s = view t ∧ (strict = true → training s = training t).

(** [m1] from [s] and [m2] from [t] end alike: the same result, the same
    scalars written, the parameters, step counter and model directory
    untouched.  With [post], normal termination moreover leaves the same
    training flag on both sides. *)
Definition same_at {A} (post : bool) (m1 m2 : Py A) (s t : Wrapper) : Prop :=
  ∃ ev,
    (m1 s).1 = (m2 t).1
    ∧ view (m1 s).2 = view s ∧ view (m2 t).2 = view t
    ∧ _writer (m1 s).2 = _writer s ++ ev
    ∧ _writer (m2 t).2 = _writer t ++ ev
    ∧ (post = true → (∃ a, (m1 s).1 = inr a) →
       training (m1 s).2 = training (m2 t).2).
End Notions.

(** The directory part of a joined path. *)
Definition dir_prefix (a : string) : string :=
  if bool_decide (a = "") || ends_with [slash] (chars a) then a else a +:+ "/".

Section EvalNotions.
Context `{External}.

(** The scalars one task's metric functions give rise to. *)
Definition metric_scalars (task : Task Score) (step : Z)
    (targets predictions : list string) : list Scalar :=
  metric_fns task ≫= λ metric_fn,
    (λ nv : string * Score,
       {| tag := "eval/" +:+ name task +:+ "/" +:+ nv.1;
          value := MetricValue nv.2; global_step := step |})
      <$> metric_fn targets predictions.

Definition predictions_file (summary_dir : string) (task : Task Score)
    (step : Z) : string :=
  path_join summary_dir
    (name task +:+ "_" +:+ py_str step +:+ "_predictions").
End EvalNotions.

(** [content.split("\n")] *)
Fixpoint split_aux (cur l : list ascii) : list (list ascii) :=
  match l with
  | [] => [reverse cur]
  | c :: l' =>
      if ascii_eqb c newline then reverse cur :: split_aux [] l'
      else split_aux (c :: cur) l'
  end.
Definition split_lines (content : string) : list string :=
  of_chars <$> split_aux [] (chars content).

Section PredictNotions.
Context `{External}.



End PredictNotions.

(** The literal parts of a checkpoint file name. *)
Definition model_chars : list ascii := chars "model-".
Definition ext_chars : list ascii := chars ".checkpoint".


(** ** Construction and fine-tuning *)

(** The dynamically typed [model_spec] argument of the constructor. *)
Inductive ModelSpec (Config : Type) :=
| SpecStr (name_or_path : string)
| SpecConfig (config : Config)
| SpecOther.
Arguments SpecStr {Config}.
Arguments SpecConfig {Config}.
Arguments SpecOther {Config}.

Section Construct.
Context `{External} {Config : Type}.
(** [T5ForConditionalGeneration.from_pretrained] and the class's own
    constructor: the parameters and the training flag of the module each
    returns; loading pretrained weights may fail. *)
Variable from_pretrained : string → Result (Params * bool).
Variable from_config : Config → Params * bool.

(** The module the constructor makes of [model_spec]. *)
Definition module_of (model_spec : ModelSpec Config)
    : Result (Params * bool) :=
  match model_spec with
  | SpecStr name_or_path => from_pretrained name_or_path
  | SpecConfig config => inr (from_config config)
  | SpecOther => inl (ValueError "model_spec should be a string or T5Config.")
  end.

(** [HfPyTorchModel(model_spec, model_dir, device)], run on the file system
    [fs] with the log [lg].  The result is the constructed wrapper, or the
    exception raised, together with the log afterwards. *)
Definition __init__ (model_spec : ModelSpec Config) (model_dir : string)
    (fs : gmap string File) (lg : list LogMsg)
    : Result Wrapper * list LogMsg :=
  match module_of model_spec with
  | inl e => (inl e, lg)
  | inr (p, mode) =>
      let this :=
        {| _model := p; training := mode; _model_dir := model_dir;
           _step := 0; _writer := []; files := fs; logs := lg |} in
      match load_latest_checkpoint this with
      | (inr _, this) => (inr this, logs this)
      | (inl e, this) => (inl e, logs this)
      end
  end.
End Construct.

Section Finetune.
Context `{External}.

(** [load_checkpoint(None, model_dir)], which [finetune] reaches when the
    pretrained directory lists no checkpoint.  The assignment
    [self._step = None] has no counterpart in [_step]; what training would
    do from there is not followed, and the run ends with the error of the
    first increment of the counter.  The file it asks for matches the
    checkpoint pattern, so [torch_load] has raised before. *)
Definition load_checkpoint_None (model_dir : option string) : Py () :=
  s ← self;
  let model_dir := dir_or model_dir (_model_dir s) in
  let path := path_join model_dir (CHECKPOINT_FILE_FORMAT "None") in
  logging_info (LogInfo ("Loading from " +:+ path));;
  state_dict ← torch_load path;
  model_load_state_dict state_dict;;
  raise (TypeError "unsupported operand type(s) for +=: 'NoneType' and 'int'").

Definition finetune (mixture_or_task_name : string) (finetune_steps : Z)
    (pretrained_model_dir : string) (pretrained_checkpoint_step : Z)
    (save_steps : Z) (sequence_length : SeqLen) (split : string)
    (batch_size : Z) (optimizer : Params → OptState)
    (learning_rate_scheduler : option (OptState → OptState)) : Py () :=
  pretrained_checkpoint_step ←
    (if bool_decide (pretrained_checkpoint_step = -1)
     then get_latest_checkpoint_step (Some pretrained_model_dir)
     else mret (Some pretrained_checkpoint_step));
  match pretrained_checkpoint_step with
  | Some step => load_checkpoint step (Some pretrained_model_dir)
  | None => load_checkpoint_None (Some pretrained_model_dir)
  end;;
  train mixture_or_task_name finetune_steps save_steps sequence_length split
    batch_size optimizer learning_rate_scheduler.
End Finetune.

(** ** Definitions for the further properties *)

(** The tags and global steps of the scalars [n] training steps report,
    starting at step counter [c]. *)
Definition step_scalars (c : Z) (n : nat) : list (string * Z) :=
  seq 0 n ≫= λ k, [("loss", c + Z.of_nat k); ("step/s", c + Z.of_nat k)].



(** ** A second concrete world

    The registry of this one holds, beside the copy task, a task whose
    validation split is empty and a task without metric functions. *)

Module Toy2.
(** [from_pretrained] knows one model, returned in inference mode; the
    class's constructor returns a module in training mode. *)
Definition from_pretrained (name_or_path : string)
    : Result (nat * bool) :=
  if bool_decide (name_or_path = "t5-base") then inr (O, false)
  else inl (ValueError "not a valid model identifier").
Definition from_config (config : unit) : nat * bool :=
  (O, true).

(** A wrapper of the first world over its own, empty directory, beside the
    directory of [Toy.saved]. *)
Definition beside_saved : @Wrapper Toy.world :=
  {| _model := _model Toy.saved; training := false; _model_dir := "/tmp/ft";
     _step := 0; _writer := []; files := files Toy.saved; logs := [] |}.

Definition empty_task : Task Z :=
  {| name := "empty";
     sentencepiece_model_path := "spm.model";
     splits := ["validation"];
     output_features := ["inputs"; "targets"];
     metric_fns := [Toy.accuracy];
     postprocess_fn := λ text _ _, text;
     task_dataset := λ _ _, inr [] |}.

Definition plain_task : Task Z :=
  {| name := "plain";
     sentencepiece_model_path := "spm.model";
     splits := ["train"; "validation"];
     output_features := ["inputs"; "targets"];
     metric_fns := [];
     postprocess_fn := λ text _ _, text;
     task_dataset := task_dataset Toy.copy_task |}.

#[export] Instance world : External :=
  {| Params := nat;
     OptState := nat;
     Loss := nat;
     Score := Z;
     GenKw := unit;
     get_mixture_or_task := λ n,
       if bool_decide (n = "copy") then Some (IsTask Toy.copy_task)
       else if bool_decide (n = "empty") then Some (IsTask empty_task)
       else if bool_decide (n = "plain") then Some (IsTask plain_task)
       else None;
     model_step := λ p opt _ _ _ _, (S p, S opt, p);
     scheduler_step := λ opt, opt;
     generate := λ _ _ _ col, Toy.row_of <$> col;
     load_state_dict := λ _ sd, (sd, None);
     vocab_decode := λ _, Toy.decode;
     vocab_encode := λ _, Toy.encode;
     trim_and_pad := λ _ _ row, row;
     feature_str := λ v, match v with Plain t => t | Tokens _ => "" end;
     DEFAULT_SPM_PATH := "spm.model" |}.

Definition fresh : Wrapper :=
  {| _model := O; training := false; _model_dir := "/tmp/hft5"; _step := 0;
     _writer := []; files := ∅; logs := [] |}.

(** A fresh wrapper of the first world whose model directory has a bracket
    expression in its name. *)
Definition bracketed : @Wrapper Toy.world :=
  {| _model := _model Toy.fresh; training := false;
     _model_dir := "/tmp/run[1]"; _step := 0; _writer := []; files := ∅;
     logs := [] |}.

(** Three examples of the copy task, and what padding and masking make of
    them. *)
Definition three_examples : list Example :=
  [Toy.example "ab" "ab"; Toy.example "cd" "dc"; Toy.example "e" "e"].
Definition masked : list Example :=
  match mapM_result (_map_fn ["inputs"; "targets"])
          (pack_or_pad (H := Toy.world) Toy.lengths ["inputs"; "targets"]
             <$> three_examples)
  with
  | inr exs => exs
  | inl _ => []
  end.
Definition features : gset string :=
  list_to_set ["inputs"; "targets"; "inputs_plaintext"; "targets_plaintext";
               "inputs_mask"; "targets_mask"].
End Toy2.

(** * Properties *)

(** ** Strings *)

Lemma chars_app a b : chars (a +:+ b) = chars a ++ chars b.
Proof. induction a as [|c a IH]; [done|]. simpl. by rewrite <-IH. Qed.

Lemma of_chars_chars s : of_chars (chars s) = s.
Proof. apply String.string_of_list_ascii_of_string. Qed.

Lemma chars_of_chars l : chars (of_chars l) = l.
Proof. apply String.list_ascii_of_string_of_list_ascii. Qed.

Lemma chars_inj a b : chars a = chars b → a = b.
Proof. intros E. by rewrite <-(of_chars_chars a), E, of_chars_chars. Qed.

Lemma string_app_assoc a b c : (a +:+ b) +:+ c = a +:+ b +:+ c.
Proof. apply chars_inj. by rewrite !chars_app, app_assoc. Qed.

Lemma string_app_inv_tail a b c : a +:+ c = b +:+ c → a = b.
Proof.
  intros E. apply chars_inj. apply (f_equal chars) in E.
  rewrite !chars_app in E. by apply app_inv_tail in E.
Qed.

Lemma strip_prefix_app p l : strip_prefix p (p ++ l) = Some l.
Proof.
  induction p as [|a p IH]; [done|]. simpl.
  unfold ascii_eqb. by rewrite bool_decide_eq_true_2.
Qed.

Lemma strip_prefix_Some p l r : strip_prefix p l = Some r → l = p ++ r.
Proof.
  revert l. induction p as [|a p IH]; intros l; simpl.
  - by intros [= ->].
  - destruct l as [|b l]; [done|]. unfold ascii_eqb.
    case_bool_decide; [|done]. intros E. subst. f_equal. by apply IH.
Qed.

Lemma starts_with_app p l : starts_with p (p ++ l) = true.
Proof. unfold starts_with. by rewrite strip_prefix_app. Qed.

Lemma ends_with_app suf l : ends_with suf (l ++ suf) = true.
Proof. unfold ends_with. rewrite reverse_app. apply starts_with_app. Qed.

(** ** Decimal numerals *)

Lemma uint_digits u : Forall (λ c, is_digit c = true) (chars (NilEmpty.string_of_uint u)).
Proof. induction u; simpl; constructor; done. Qed.

Lemma py_str_inj a b : py_str a = py_str b → a = b.
Proof.
  unfold py_str. intros E. apply DecimalZ.to_int_inj.
  assert (Hn : ∀ z, Z.to_int z ≠ Decimal.Pos Decimal.Nil
                    ∧ Z.to_int z ≠ Decimal.Neg Decimal.Nil).
  { intros [|p|p]; simpl; split; try done; intros [= E'];
      by apply (Unsigned.to_uint_nonnil p). }
  destruct (Hn a) as [Ha1 Ha2], (Hn b) as [Hb1 Hb2].
  pose proof (NilZero.isi _ Ha1 Ha2) as Ea.
  pose proof (NilZero.isi _ Hb1 Hb2) as Eb.
  rewrite E in Ea. congruence.
Qed.

(** The numeral of a non-negative step: a non-empty run of digits that [int]
    reads back. *)
Lemma py_str_nonneg z :
  0 ≤ z →
  chars (py_str z) ≠ []
  ∧ Forall (λ c, is_digit c = true) (chars (py_str z))
  ∧ py_int (py_str z) = Some z.
Proof.
  intros Hz. unfold py_str.
  assert (∃ u, Z.to_int z = Decimal.Pos u ∧ u ≠ Decimal.Nil) as (u & Eu & Hu).
  { destruct z as [|p|p]; [by eexists| |lia].
    eexists; split; [done|]. apply Unsigned.to_uint_nonnil. }
  pose proof (DecimalZ.of_to z) as Hof. rewrite Eu in Hof |- *. simpl in Hof.
  simpl. assert (E : NilZero.string_of_uint u = NilEmpty.string_of_uint u)
    by (by destruct u).
  rewrite E. split; [by destruct u|]. split; [apply uint_digits|].
  unfold py_int. rewrite NilEmpty.usu. simpl. rewrite Hof. by destruct u.
Qed.

(** ** The training loop *)

Ltac py_red :=
  cbv beta iota delta
    [mbind mret Py_bind Py_ret raise self update lift logging_info add_scalar
     torch_save].

Section TrainFacts.
Context `{External}.

Lemma train_body_spec save_steps sched ts opt i batch s :
  save_steps ≠ 0 → trainable batch →
  ∃ opt' s',
    train_body save_steps sched (ts, opt) (i, batch) s
    = (inr (Some i, opt'), s')
    ∧ _step s' = _step s + 1
    ∧ _model_dir s' = _model_dir s
    ∧ training s' = training s
    ∧ files s'
      = (if bool_decide (i `mod` save_steps = 0)
         then <[checkpoint_path (_model_dir s) (_step s)
                := Checkpoint (_model s)]> (files s)
         else files s)
    ∧ logs s'
      = logs s ++ (if bool_decide (i `mod` save_steps = 0)
                   then [saving_notice (_step s)] else []).
Proof.
  intros Hs ([a Ha] & [b Hb] & [c Hc] & [d Hd]).
  unfold train_body, py_mod, batch_get, save_checkpoint. simpl.
  rewrite (bool_decide_eq_false_2 _ Hs).
  py_red. rewrite Ha, Hb, Hc, Hd.
  destruct (bool_decide (i `mod` save_steps = 0)); simpl;
    destruct (model_step _ _ _ _ _ _) as [[p o] l]; simpl;
    eexists _, _; (split; [reflexivity|]); simpl;
    rewrite ?app_nil_r; done.
Qed.

Lemma insert_checkpoints_app dir l1 l2 fs :
  insert_checkpoints dir (l1 ++ l2) fs
  = insert_checkpoints dir l2 (insert_checkpoints dir l1 fs).
Proof. unfold insert_checkpoints. apply foldl_app. Qed.

Lemma for_fold_cons {A S} (x : A) l (acc : S) body s :
  for_fold (x :: l) acc body s
  = match body acc x s with
    | (inr acc', s') => for_fold l acc' body s'
    | (inl e, s') => (inl e, s')
    end.
Proof. reflexivity. Qed.

Lemma save_points_S save_steps i step n :
  save_points save_steps i step (S n)
  = (if bool_decide (i `mod` save_steps = 0) then [step] else [])
    ++ save_points save_steps (i + 1) (step + 1) n.
Proof. reflexivity. Qed.

Lemma train_loop_spec save_steps sched batches :
  save_steps ≠ 0 → Forall trainable batches →
  ∀ i ts opt s, ∃ opt' s' saves,
    for_fold (enumerate_from i batches) (ts, opt)
      (train_body save_steps sched) s
    = (inr (match batches with
            | [] => ts
            | _ => Some (i + Z.of_nat (length batches) - 1)
            end, opt'), s')
    ∧ _step s' = _step s + Z.of_nat (length batches)
    ∧ _model_dir s' = _model_dir s
    ∧ training s' = training s
    ∧ saves.*1 = save_points save_steps i (_step s) (length batches)
    ∧ files s' = insert_checkpoints (_model_dir s) saves (files s)
    ∧ logs s' = logs s ++ (saving_notice <$> saves.*1)
    ∧ (i `mod` save_steps = 0 → batches ≠ [] →
       head saves = Some (_step s, _model s)).
Proof.
  intros Hs Hall. induction Hall as [|b bs Hb Hbs IH]; intros i ts opt s.
  - exists opt, s, []. simpl. rewrite app_nil_r, Z.add_0_r. done.
  - destruct (train_body_spec save_steps sched ts opt i b s Hs Hb)
      as (opt1 & s1 & Hrun & Hstep & Hdir & Htr & Hfiles & Hlogs).
    destruct (IH (i + 1) (Some i) opt1 s1)
      as (opt2 & s2 & saves & Hrun2 & Hstep2 & Hdir2 & Htr2 & Hsv & Hfiles2
          & Hlogs2 & _).
    set (first := if bool_decide (i `mod` save_steps = 0)
                  then [(_step s, _model s)] else []).
    exists opt2, s2, (first ++ saves).
    split.
    { change (enumerate_from i (b :: bs))
        with ((i, b) :: enumerate_from (i + 1) bs).
      rewrite for_fold_cons, Hrun, Hrun2.
      destruct bs; cbn [length] in *; repeat (f_equal; try lia). }
    split; [cbn [length]; lia|]. split; [congruence|]. split; [congruence|].
    rewrite fmap_app, insert_checkpoints_app, Hsv, Hstep.
    subst first. simpl.
    split; [by destruct (bool_decide _)|].
    split.
    { rewrite Hfiles2, Hfiles, Hdir. by destruct (bool_decide _). }
    split.
    { rewrite Hlogs2, Hlogs, Hsv, Hstep, <-app_assoc.
      by destruct (bool_decide _). }
    intros Hi _. by rewrite bool_decide_eq_true_2.
Qed.

Lemma cycle_take_length {A} (ds : list A) n cur :
  ds ≠ [] → length (cycle_take n cur ds) = n.
Proof.
  intros Hds. revert cur. induction n as [|n IH]; intros cur; [done|].
  simpl. destruct cur; [destruct ds; [done|]|]; simpl; by rewrite IH.
Qed.

Lemma cycle_take_Forall {A} (P : A → Prop) (ds : list A) n cur :
  Forall P ds → Forall P cur → Forall P (cycle_take n cur ds).
Proof.
  intros Hds. revert cur. induction n as [|n IH]; intros cur Hcur; [done|].
  simpl. destruct cur as [|x cur].
  - destruct ds as [|x ds']; [done|].
    inversion Hds; subst. constructor; [done|]. by apply IH.
  - inversion Hcur; subst. constructor; [done|]. by apply IH.
Qed.

Lemma cycle_take_nil {A} n : cycle_take n [] (@nil A) = [].
Proof. by destruct n. Qed.

(** What a successful call of [train] leaves behind. *)
Lemma train_spec name steps save_steps sl split bs optimizer scheduler s ds :
  get_dataset name sl split bs = inr ds → ds ≠ [] → Forall trainable ds →
  1 ≤ steps → save_steps ≠ 0 →
  ∃ s' saves,
    train name steps save_steps sl split bs optimizer scheduler s
    = (inr (), s')
    ∧ _step s' = _step s + steps
    ∧ _model_dir s' = _model_dir s
    ∧ saves.*1
      = save_points save_steps 0 (_step s) (Z.to_nat steps)
        ++ (if bool_decide ((steps - 1) `mod` save_steps ≠ 0)
            then [_step s + steps] else [])
    ∧ files s' = insert_checkpoints (_model_dir s) saves (files s)
    ∧ head saves = Some (_step s, _model s)
    ∧ ((steps - 1) `mod` save_steps ≠ 0 →
       last saves = Some (_step s', _model s'))
    ∧ logs s'
      = logs s
        ++ (saving_notice
              <$> save_points save_steps 0 (_step s) (Z.to_nat steps))
        ++ (if bool_decide ((steps - 1) `mod` save_steps ≠ 0)
            then [LogInfo ("Saving final checkpoint for step "
                           +:+ py_str (_step s + steps))]
            else []).
Proof.
  intros Hds Hne Hall Hsteps Hs.
  set (batches := cycle_take (Z.to_nat steps) ds ds).
  assert (Hlen : length batches = Z.to_nat steps)
    by (by apply cycle_take_length).
  assert (Hall' : Forall trainable batches)
    by (by apply cycle_take_Forall).
  set (opt0 := match scheduler with
               | Some f => f (optimizer (_model s))
               | None => optimizer (_model s)
               end).
  destruct (train_loop_spec save_steps
              (bool_decide (is_Some scheduler)) batches Hs Hall' 0 None opt0
              (with_training true s))
    as (opt' & s1 & saves & Hrun & Hstep & Hdir & Htr & Hsv & Hfiles
        & Hlogs & Hhead).
  assert (Hb : batches ≠ []) by (intros E; rewrite E in Hlen; simpl in Hlen; lia).
  assert (Hlast : match batches with
                  | [] => None
                  | _ => Some (0 + Z.of_nat (length batches) - 1)
                  end = Some (steps - 1)).
  { destruct batches; [done|]. f_equal. lia. }
  rewrite Hlast in Hrun. simpl in Hstep, Hdir, Hsv, Hfiles, Hlogs, Hhead.
  rewrite Hlen in Hsv, Hstep.
  unfold train. py_red. rewrite Hds.
  rewrite bool_decide_eq_false_2 by lia.
  unfold enumerate. fold batches. simpl. fold opt0.
  unfold mbind, Py_bind in Hrun |- *. rewrite Hrun. simpl.
  unfold py_mod. rewrite (bool_decide_eq_false_2 _ Hs). py_red.
  destruct (decide ((steps - 1) `mod` save_steps = 0)) as [Hm|Hm].
  - rewrite !(bool_decide_eq_false_2 (_ ≠ 0)) by (intros ?; done).
    exists s1, saves. rewrite !app_nil_r.
    split; [done|]. split; [lia|]. split; [done|]. split; [done|].
    split; [done|]. split; [by apply Hhead|]. split; [done|].
    by rewrite Hlogs, Hsv.
  - rewrite !(bool_decide_eq_true_2 (_ ≠ 0)) by done.
    unfold save_checkpoint. py_red. simpl.
    eexists _, (saves ++ [(_step s1, _model s1)]).
    split; [reflexivity|]. simpl.
    split; [lia|]. split; [done|].
    split.
    { rewrite fmap_app, Hsv. simpl.
      by replace (_step s1) with (_step s + steps) by lia. }
    split; [by rewrite insert_checkpoints_app, Hfiles, Hdir|].
    split.
    { destruct saves as [|sv saves']; [|by apply Hhead].
      destruct (Z.to_nat steps) as [|n] eqn:En; [lia|].
      rewrite save_points_S, Z.mod_0_l in Hsv by done.
      by rewrite bool_decide_eq_true_2 in Hsv. }
    split; [intros _; by rewrite last_snoc|].
    rewrite Hlogs, Hsv, <-app_assoc.
    by replace (_step s1) with (_step s + steps) by lia.
Qed.
End TrainFacts.

(** ** Checkpoint paths *)

Lemma path_join_model a x :
  path_join a ("model-" +:+ x) = dir_prefix a +:+ "model-" +:+ x.
Proof.
  unfold path_join, dir_prefix. rewrite chars_app. simpl.
  destruct (_ || _); [done|]. by rewrite string_app_assoc.
Qed.

Lemma checkpoint_path_eq dir z :
  checkpoint_path dir z
  = dir_prefix dir +:+ "model-" +:+ py_str z +:+ ".checkpoint".
Proof.
  unfold checkpoint_path, CHECKPOINT_FILE_FORMAT. apply path_join_model.
Qed.

Lemma checkpoint_path_inj dir a b :
  checkpoint_path dir a = checkpoint_path dir b → a = b.
Proof.
  rewrite !checkpoint_path_eq. intros E.
  apply String.app_inj in E. apply String.app_inj in E.
  apply string_app_inv_tail in E. by apply py_str_inj.
Qed.

Section StoreFacts.
Context `{External}.

Lemma insert_checkpoints_lookup_other dir saves fs path :
  (∀ z, z ∈ saves.*1 → path ≠ checkpoint_path dir z) →
  insert_checkpoints dir saves fs !! path = fs !! path.
Proof.
  revert fs. induction saves as [|[z p] saves IH]; intros fs Hz; [done|].
  simpl. rewrite IH.
  - rewrite lookup_insert_ne; [done|]. intros E. eapply Hz; [|done].
    simpl. left.
  - intros z' Hz'. apply Hz. simpl. by right.
Qed.

(** C10: [load_checkpoint] assigns the step counter last.  When it raises,
    because the file is missing, is no checkpoint, or [load_state_dict]
    rejects it, the counter is what it was; when it returns, the counter is
    the requested step. *)
Theorem load_checkpoint_step_counter step model_dir s :
  match load_checkpoint step model_dir s with
  | (inl _, s') => _step s' = _step s
  | (inr _, s') => _step s' = step
  end.
Proof.
  unfold load_checkpoint, torch_load, model_load_state_dict.
  py_red. simpl.
  destruct (files s !! _) as [[sd|c]|]; simpl; try done.
  destruct (load_state_dict _ _) as [p [msg|]]; simpl; done.
Qed.

(** [load_checkpoint] returns exactly when the file is a checkpoint that
    [load_state_dict] accepts. *)
Lemma load_checkpoint_returns step model_dir s :
  (∃ s', load_checkpoint step model_dir s = (inr (), s'))
  ↔ ∃ sd,
      files s !! checkpoint_path (dir_or model_dir (_model_dir s)) step
      = Some (Checkpoint sd)
      ∧ (load_state_dict (_model s) sd).2 = None.
Proof.
  unfold load_checkpoint, torch_load, model_load_state_dict.
  py_red. simpl.
  destruct (files s !! _) as [[sd|c]|]; simpl.
  - destruct (load_state_dict _ _) as [p [msg|]] eqn:E; simpl.
    + split; [by intros [? ?]|]. intros (sd' & [= <-] & Hl).
      by rewrite E in Hl.
    + split; [|by eexists]. intros _. exists sd. by rewrite E.
  - split; [by intros [? ?]|]. by intros (? & ? & _).
  - split; [by intros [? ?]|]. by intros (? & ? & _).
Qed.

Lemma save_points_bounds save_steps n :
  ∀ i step z, z ∈ save_points save_steps i step n →
              step ≤ z < step + Z.of_nat n.
Proof.
  induction n as [|n IH]; intros i step z; simpl.
  - by intros ?%elem_of_nil.
  - intros [Hz|Hz]%elem_of_app.
    + destruct (bool_decide _); [|by apply elem_of_nil in Hz].
      apply list_elem_of_singleton in Hz. lia.
    + apply IH in Hz. lia.
Qed.
End StoreFacts.

Section TrainClaims.
Context `{External}.

(** When the last loop index is a multiple of the interval, [train] writes
    nothing under the step counter it ends with: the parameters after the
    last update are in no checkpoint of this call. *)
Lemma train_no_final_checkpoint name steps save_steps sl split bs optimizer
    scheduler s ds :
  get_dataset name sl split bs = inr ds → ds ≠ [] → Forall trainable ds →
  1 ≤ steps → save_steps ≠ 0 → (steps - 1) `mod` save_steps = 0 →
  ∃ s',
    train name steps save_steps sl split bs optimizer scheduler s
    = (inr (), s')
    ∧ _step s' = _step s + steps
    ∧ files s' !! checkpoint_path (_model_dir s') (_step s')
      = files s !! checkpoint_path (_model_dir s) (_step s + steps).
Proof.
  intros Hds Hne Hall Hsteps Hs Hm.
  destruct (train_spec name steps save_steps sl split bs optimizer scheduler
              s ds Hds Hne Hall Hsteps Hs)
    as (s' & saves & Hrun & Hstep & Hdir & Hsv & Hfiles & _).
  exists s'. split; [done|]. split; [done|].
  rewrite Hfiles, Hdir, Hstep.
  apply insert_checkpoints_lookup_other. intros z Hz E.
  apply checkpoint_path_inj in E. subst z.
  rewrite Hsv, bool_decide_eq_false_2, app_nil_r in Hz by (intros ?; done).
  apply save_points_bounds in Hz. lia.
Qed.

(** C1: from step counter 0, [train] with [steps = 10] and a save interval of
    4 saves four checkpoints, in this order: at step 0 the parameters it
    started from, at steps 4 and 8 the parameters reached by then, and after
    the loop, since the last loop index 9 is no multiple of 4, the final
    parameters at step 10.  Nothing else is written. *)
Theorem train_10_4_checkpoints name sl split bs optimizer scheduler s ds :
  get_dataset name sl split bs = inr ds → ds ≠ [] → Forall trainable ds →
  _step s = 0 →
  ∃ s' p4 p8,
    train name 10 4 sl split bs optimizer scheduler s = (inr (), s')
    ∧ _step s' = 10
    ∧ files s'
      = <[checkpoint_path (_model_dir s) 10 := Checkpoint (_model s')]>
          (<[checkpoint_path (_model_dir s) 8 := Checkpoint p8]>
             (<[checkpoint_path (_model_dir s) 4 := Checkpoint p4]>
                (<[checkpoint_path (_model_dir s) 0 := Checkpoint (_model s)]>
                   (files s))))
    ∧ logs s'
      = logs s ++ [LogInfo "Saving checkpoint for step 0";
                   LogInfo "Saving checkpoint for step 4";
                   LogInfo "Saving checkpoint for step 8";
                   LogInfo "Saving final checkpoint for step 10"].
Proof.
  intros Hds Hne Hall H0.
  destruct (train_spec name 10 4 sl split bs optimizer scheduler s ds
              Hds Hne Hall ltac:(lia) ltac:(lia))
    as (s' & saves & Hrun & Hstep & Hdir & Hsv & Hfiles & Hhead & Hlast
        & Hlogs).
  rewrite H0 in *. specialize (Hlast ltac:(done)).
  change (saves.*1 = [0; 4; 8; 10]) in Hsv.
  destruct saves as [|[z0 p0] [|[z4 p4] [|[z8 p8] [|[z10 p10] [|? ?]]]]];
    try done.
  simpl in Hsv, Hhead, Hlast.
  injection Hsv as -> -> -> ->.
  assert (p0 = _model s) as -> by congruence.
  assert (p10 = _model s') as -> by congruence.
  exists s', p4, p8. by rewrite Hfiles.
Qed.

(** C9: with [steps = 0] the loop body never runs, [train_step] is never
    bound, and the check after the loop raises the unbound-local error;
    nothing was saved.  A negative [steps] does not reach the loop either. *)
Theorem train_without_steps name steps save_steps sl split bs optimizer
    scheduler s ds :
  get_dataset name sl split bs = inr ds → steps ≤ 0 →
  ∃ e,
    train name steps save_steps sl split bs optimizer scheduler s
    = (inl e, with_training true s)
    ∧ (steps = 0 → e = UnboundLocalError "train_step").
Proof.
  intros Hds Hsteps. unfold train. py_red. rewrite Hds.
  destruct (decide (steps = 0)) as [->|Hne].
  - simpl. by eexists.
  - rewrite bool_decide_eq_true_2 by lia. by eexists.
Qed.
End TrainClaims.

(** ** Evaluation *)

Section EvalFacts.
Context `{External}.

Lemma bind_run {A B} (m : Py A) (f : A → Py B) s :
  (m ≫= f) s
  = match m s with
    | (inr a, s') => f a s'
    | (inl e, s') => (inl e, s')
    end.
Proof. reflexivity. Qed.

Lemma ret_bind {A B} (a : A) (f : A → Py B) s : (mret a ≫= f) s = f a s.
Proof. reflexivity. Qed.

Lemma self_bind {B} (f : Wrapper → Py B) s : (self ≫= f) s = f s s.
Proof. reflexivity. Qed.

Lemma for_each_cons {A} (x : A) l body s :
  for_each (x :: l) body s
  = match body x s with
    | (inr _, s') => for_each l body s'
    | (inl e, s') => (inl e, s')
    end.
Proof. reflexivity. Qed.

(** The generation loop of [eval_task] reads the model and writes nothing. *)
Lemma predictions_loop vocab kw (task : Task Score) s ds :
  Forall (λ batch : Batch, is_Some (batch !! "inputs")) ds →
  ∀ acc,
    for_fold ds acc (λ predictions batch,
      input_ids ← batch_get batch "inputs";
      s ← self;
      mret (predictions ++
              ((λ '(p, ex), postprocess_fn task (vocab_decode vocab p) ex false)
                 <$> zip (generate (training s) (_model s) kw input_ids)
                       (_unbatch batch)))) s
    = (inr (acc ++ task_predictions vocab kw task s ds), s).
Proof.
  induction 1 as [|b ds [col Hb] _ IH]; intros acc.
  - unfold task_predictions. simpl. by rewrite app_nil_r.
  - rewrite for_fold_cons. unfold batch_get at 1. rewrite Hb. py_red.
    rewrite IH. unfold task_predictions. simpl. rewrite Hb. simpl.
    by rewrite app_assoc.
Qed.

(** The metric loops of [eval_task] only append to the summary writer and
    to the log. *)
Lemma metric_loop (task : Task Score) targets predictions fns :
  ∀ s, ∃ s',
    for_each fns (λ metric_fn : list string → list string → list (string * Score),
      let scores := metric_fn targets predictions in
      for_each scores (λ '(metric_name, metric_value),
        let tag := "eval/" +:+ name task +:+ "/" +:+ metric_name in
        s ← self;
        add_scalar tag (MetricValue metric_value) (_step s);;
        logging_info (LogMetric tag (_step s) metric_value))) s
    = (inr (), s')
    ∧ _writer s'
      = _writer s
        ++ (fns ≫= λ metric_fn,
             (λ nv : string * Score,
                {| tag := "eval/" +:+ name task +:+ "/" +:+ nv.1;
                   value := MetricValue nv.2; global_step := _step s |})
               <$> metric_fn targets predictions)
    ∧ files s' = files s ∧ view s' = view s ∧ training s' = training s.
Proof.
  assert (Hinner : ∀ scores s, ∃ s',
    for_each scores (λ '(metric_name, metric_value),
        let tag := "eval/" +:+ name task +:+ "/" +:+ metric_name in
        s ← self;
        add_scalar tag (MetricValue metric_value) (_step s);;
        logging_info (LogMetric tag (_step s) metric_value)) s
    = (inr (), s')
    ∧ _writer s'
      = _writer s
        ++ ((λ nv : string * Score,
                {| tag := "eval/" +:+ name task +:+ "/" +:+ nv.1;
                   value := MetricValue nv.2; global_step := _step s |})
               <$> scores)
    ∧ files s' = files s ∧ view s' = view s ∧ training s' = training s).
  { induction scores as [|[n v] scores IH]; intros s.
    - exists s. simpl. by rewrite app_nil_r.
    - rewrite for_each_cons. py_red. simpl.
      edestruct IH as (s' & -> & Hw & Hf & Hv & Ht). exists s'.
      split; [done|]. simpl in *. rewrite Hw, <-app_assoc. simpl.
      split; [done|]. split; [done|]. split; [exact Hv|exact Ht]. }
  cbv zeta in Hinner |- *.
  induction fns as [|fn fns IH]; intros s.
  - exists s. simpl. by rewrite app_nil_r.
  - rewrite for_each_cons.
    destruct (Hinner (fn targets predictions) s)
      as (s1 & -> & Hw1 & Hf1 & Hv1 & Ht1).
    destruct (IH s1) as (s2 & -> & Hw2 & Hf2 & Hv2 & Ht2).
    exists s2. split; [done|].
    rewrite Hw2, Hw1, <-app_assoc.
    assert (_step s1 = _step s) as -> by (by injection Hv1).
    repeat split; congruence.
Qed.

Lemma write_lines_spec lines filename s :
  write_lines_to_file lines filename s
  = (inr (), with_files (<[filename := TextFile (join_lines lines)]> (files s)) s).
Proof.
  unfold write_lines_to_file. py_red. case_bool_decide; simpl; [|done].
  unfold with_files. simpl. by rewrite insert_delete_eq.
Qed.

(** C3: for a task whose cached batches and targets are at hand,
    [eval_task] compares the number of cached targets with the number of
    predictions it generated.  When they differ it raises the error whose
    message spells out both counts, having written no prediction file and no
    scalar; when they agree it writes the predictions and the scalars of the
    task's metric functions. *)
Theorem eval_task_checks_counts vocab summary_dir kw cached_targets
    cached_examples (task : Task Score) s ds targets :
  cached_examples !! name task = Some ds →
  cached_targets !! name task = Some targets →
  Forall (λ batch : Batch, is_Some (batch !! "inputs")) ds →
  let predictions := task_predictions vocab kw task s ds in
  if decide (length targets = length predictions) then
    ∃ s',
      eval_task vocab summary_dir kw cached_targets cached_examples task s
      = (inr (), s')
      ∧ files s' !! predictions_file summary_dir task (_step s)
        = Some (TextFile (join_lines predictions))
      ∧ _writer s'
        = _writer s ++ metric_scalars task (_step s) targets predictions
  else
    eval_task vocab summary_dir kw cached_targets cached_examples task s
    = (inl (ValueError
              ("#targets (" +:+ py_str (Z.of_nat (length targets))
               +:+ ") != #predictions ("
               +:+ py_str (Z.of_nat (length predictions)) +:+ ")")), s).
Proof.
  intros Hex Htg Hds predictions.
  unfold eval_task, cache_get. rewrite Hex, Htg, !ret_bind, bind_run.
  rewrite (predictions_loop vocab kw task s ds Hds []). simpl.
  fold predictions.
  destruct (decide (length targets = length predictions)) as [E|E].
  - rewrite bool_decide_eq_false_2 by (intros ?; done).
    rewrite self_bind, bind_run, write_lines_spec.
    edestruct (metric_loop task targets predictions (metric_fns task))
      as (s' & Hrun & Hw & Hf & _).
    cbv zeta in Hrun. cbv zeta. rewrite Hrun.
    exists s'. split; [done|]. rewrite Hf, Hw. simpl.
    split; [apply lookup_insert_eq|done].
  - by rewrite bool_decide_eq_true_2.
Qed.

Lemma skip_notices split (tasks : list (Task Score)) :
  Forall (λ task, split ∉ splits task) tasks →
  ∀ s,
    for_each tasks (λ task,
      if bool_decide (split ∉ splits task) then logging_info skip_notice
      else mret ()) s
    = (inr (), with_logs (logs s ++ replicate (length tasks) skip_notice) s).
Proof.
  induction 1 as [|task tasks Hno _ IH]; intros s.
  - simpl. unfold mret, Py_ret. destruct s. unfold with_logs. simpl.
    by rewrite app_nil_r.
  - rewrite for_each_cons, bool_decide_eq_true_2 by done.
    unfold logging_info at 1, update. rewrite IH. simpl.
    unfold with_logs. simpl. by rewrite <-app_assoc.
Qed.

Lemma filter_none_with_split split (tasks : list (Task Score)) :
  Forall (λ task, split ∉ splits task) tasks →
  filter (λ task, split ∈ splits task) tasks = [].
Proof.
  induction 1 as [|task tasks Hno _ IH]; [done|].
  by rewrite filter_cons_False.
Qed.

(** C8: when no member task of a mixture defines the requested split,
    [eval] of the in-memory model logs one skip notice per task and returns
    normally.  No dataset is read, no file and no scalar is written: only
    the log grows and the module is left in inference mode. *)
Theorem eval_skips_tasks_without_split name sl bs summary_dir split kw s m :
  get_mixture_or_task name = Some (IsMixture m) →
  Forall (λ task, split ∉ splits task) (tasks m) →
  eval name sl bs PyNone summary_dir split kw s
  = (inr (),
     with_training false
       (with_logs (logs s ++ replicate (length (tasks m)) skip_notice) s)).
Proof.
  intros Hm Hno. unfold eval. rewrite Hm, ret_bind, bind_run.
  rewrite (skip_notices split (tasks m) Hno s).
  rewrite (filter_none_with_split split (tasks m) Hno). done.
Qed.

(** *** The [checkpoint_steps] argument *)

Lemma eval_int_is_singleton name sl bs z summary_dir split kw :
  eval name sl bs (PyInt z) summary_dir split kw
  = eval name sl bs (PyList [z]) summary_dir split kw.
Proof. reflexivity. Qed.

Lemma eval_tuple_is_list name sl bs l summary_dir split kw :
  eval name sl bs (PyTuple l) summary_dir split kw
  = eval name sl bs (PyList l) summary_dir split kw.
Proof. reflexivity. Qed.

(** How [eval] treats its [checkpoint_steps] argument.  Running [eval] on an
    empty list of steps is the part of [eval] before the argument is looked
    at; [current] is the evaluation of the in-memory model it has prepared. *)
Lemma eval_checkpoint_steps_cases name sl bs summary_dir split kw s s' :
  eval name sl bs (PyList []) summary_dir split kw s = (inr (), s') →
  ∃ current : Py (),
    let run (steps : list Z) :=
      for_each steps (λ step, load_checkpoint step None;; current) in
    eval name sl bs PyNone summary_dir split kw s = current s'
    ∧ (∀ z, eval name sl bs (PyInt z) summary_dir split kw s = run [z] s')
    ∧ (∀ l, eval name sl bs (PyList l) summary_dir split kw s = run l s')
    ∧ (∀ l, eval name sl bs (PyTuple l) summary_dir split kw s = run l s')
    ∧ eval name sl bs (PyStr "all") summary_dir split kw s
      = (steps ← get_all_checkpoint_steps None;
         match steps with
         | Some steps => run steps
         | None => raise (TypeError "'NoneType' object is not iterable")
         end) s'
    ∧ (∀ str, str ≠ "all" →
         eval name sl bs (PyStr str) summary_dir split kw s
         = (inl (ValueError
                   ("checkpoint_steps must be None, int or list; got "
                    +:+ str)), s'))
    ∧ (∀ repr,
         eval name sl bs (PyOther repr) summary_dir split kw s
         = (inl (ValueError
                   ("checkpoint_steps must be None, int or list; got "
                    +:+ repr)), s')).
Proof.
  intros Hpre. unfold eval in Hpre.
  destruct (get_mixture_or_task name) as [mt|] eqn:E1; [|discriminate Hpre].
  rewrite ret_bind, bind_run in Hpre.
  destruct (for_each _ _ s) as [[e|[]] s1] eqn:E2; [done|].
  rewrite self_bind, bind_run in Hpre.
  destruct (for_fold _ _ _ s1) as [[e|cached] s2] eqn:E3; [done|].
  cbv zeta in Hpre. simpl in Hpre. injection Hpre as <-.
  exists (_eval_current_model
            match mt with
            | IsMixture m => mixture_sentencepiece_model_path m
            | IsTask t => sentencepiece_model_path t
            end
            (dir_or summary_dir (path_join (_model_dir s1) (split +:+ "_eval")))
            kw
            (filter (λ task, split ∈ splits task)
               match mt with
               | IsMixture m => tasks m
               | IsTask t => [t]
               end)
            cached.1 cached.2).
  repeat split; intros; unfold eval;
    rewrite E1, ret_bind, bind_run, E2, self_bind, bind_run, E3;
    cbv zeta; rewrite ?bool_decide_eq_true_2, ?bool_decide_eq_false_2 by done;
    reflexivity.
Qed.
End EvalFacts.

(** ** Evaluation does not depend on what it leaves behind *)

Section Same.
Context `{External}.

Lemma sim_view b s t : sim b s t → view s = view t.
Proof. by intros [? _]. Qed.

Lemma sim_fields b s t :
  sim b s t →
  _model t = _model s ∧ _step t = _step s ∧ _model_dir t = _model_dir s.
Proof. intros [Hv _]. unfold view in Hv. by injection Hv as -> -> ->. Qed.

Lemma same_ret {A} p (a : A) s t :
  sim p s t → same_at p (mret a) (mret a) s t.
Proof.
  intros [Hv Ht]. exists []. simpl. rewrite !app_nil_r.
  repeat split; try done; intros Hp _; by apply Ht.
Qed.

Lemma same_raise {A} p e s t : same_at p (@raise _ A e) (raise e) s t.
Proof.
  exists []. simpl. rewrite !app_nil_r.
  repeat split; try done; by intros _ [a Ha].
Qed.

Lemma same_lift {A} p (r : Result A) s t :
  sim p s t → same_at p (lift r) (lift r) s t.
Proof.
  intros [Hv Ht]. exists []. simpl. rewrite !app_nil_r.
  repeat split; try done; intros Hp _; by apply Ht.
Qed.

Lemma same_bind {A B} mid post (m1 m2 : Py A) (f1 f2 : A → Py B) s t :
  view s = view t →
  same_at mid m1 m2 s t →
  (∀ a s' t', sim mid s' t' → same_at post (f1 a) (f2 a) s' t') →
  same_at post (m1 ≫= f1) (m2 ≫= f2) s t.
Proof.
  intros Hst (ev & Hr & Hv1 & Hv2 & Hw1 & Hw2 & Htr) Hf.
  unfold same_at. rewrite !bind_run.
  destruct (m1 s) as [[e|a] s'], (m2 t) as [[e'|a'] t']; simpl in *;
    try done.
  - injection Hr as <-. exists ev.
    repeat split; try done; by intros _ [? ?].
  - injection Hr as <-.
    destruct (Hf a s' t') as (ev' & Hr' & Hv1' & Hv2' & Hw1' & Hw2' & Htr').
    { split; [congruence|]. intros Hm. apply Htr; [done|by eexists]. }
    exists (ev ++ ev'). rewrite !app_assoc, <-Hw1, <-Hw2.
    repeat split; try done; congruence.
Qed.

Lemma same_self {B} post (f1 f2 : Wrapper → Py B) s t :
  same_at post (f1 s) (f2 t) s t →
  same_at post (self ≫= f1) (self ≫= f2) s t.
Proof. done. Qed.

Lemma same_logging_info p m s t :
  sim p s t → same_at p (logging_info m) (logging_info m) s t.
Proof.
  intros [Hv Ht]. exists []. simpl. rewrite !app_nil_r.
  repeat split; try done; intros Hp _; by apply Ht.
Qed.

Lemma same_add_scalar p tg v step s t :
  sim p s t → same_at p (add_scalar tg v step) (add_scalar tg v step) s t.
Proof.
  intros [Hv Ht]. eexists [_]. simpl.
  repeat split; try done; intros Hp _; by apply Ht.
Qed.

Lemma same_set_training p b s t :
  same_at p (update (with_training b)) (update (with_training b)) s t.
Proof. exists []. simpl. rewrite !app_nil_r. by repeat split. Qed.

Lemma same_write_lines p lines filename s t :
  sim p s t →
  same_at p (write_lines_to_file lines filename)
    (write_lines_to_file lines filename) s t.
Proof.
  intros [Hv Ht]. unfold same_at. rewrite !write_lines_spec. exists []. simpl.
  rewrite !app_nil_r. repeat split; try done. intros Hp _. by apply Ht.
Qed.

Lemma same_for_each {A} p (l : list A) (f1 f2 : A → Py ()) :
  (∀ x s t, sim p s t → same_at p (f1 x) (f2 x) s t) →
  ∀ s t, sim p s t → same_at p (for_each l f1) (for_each l f2) s t.
Proof.
  intros Hf. induction l as [|x l IH]; intros s t Hst.
  - by apply same_ret.
  - simpl. eapply same_bind; [by eapply sim_view|by apply Hf|].
    intros _ s' t' Hst'. by apply IH.
Qed.

Lemma same_for_fold {A S} p (l : list A) (f1 f2 : S → A → Py S) :
  (∀ acc x s t, sim p s t → same_at p (f1 acc x) (f2 acc x) s t) →
  ∀ acc s t, sim p s t →
             same_at p (for_fold l acc f1) (for_fold l acc f2) s t.
Proof.
  intros Hf. induction l as [|x l IH]; intros acc s t Hst.
  - by apply same_ret.
  - simpl. eapply same_bind; [by eapply sim_view|by apply Hf|].
    intros acc' s' t' Hst'. by apply IH.
Qed.

Lemma same_mapM {A B} p (l : list A) (f1 f2 : A → Py B) :
  (∀ x s t, sim p s t → same_at p (f1 x) (f2 x) s t) →
  ∀ s t, sim p s t → same_at p (mapM f1 l) (mapM f2 l) s t.
Proof.
  intros Hf. induction l as [|x l IH]; intros s t Hst.
  - by apply same_ret.
  - simpl. eapply same_bind; [by eapply sim_view|by apply Hf|].
    intros y s' t' Hst'.
    eapply same_bind; [by eapply sim_view|by apply IH|].
    intros ys s'' t'' Hst''. by apply same_ret.
Qed.

Ltac same_bind_with p :=
  eapply (same_bind p); [by eapply sim_view| |].

Lemma same_cache_task sl bs split summary_dir cached (task : Task Score) s t :
  sim false s t →
  same_at false (cache_task sl bs split summary_dir cached task)
    (cache_task sl bs split summary_dir cached task) s t.
Proof.
  intros Hst. unfold cache_task.
  destruct (metric_fns task); [by apply same_ret|].
  same_bind_with false; [by apply same_lift|].
  intros batches s1 t1 H1. destruct batches as [|b batches]; [apply same_raise|].
  same_bind_with false.
  { apply same_mapM; [|done]. intros ex s2 t2 H2.
    unfold example_get. destruct (ex !! "targets_plaintext") as [v|].
    - same_bind_with false; [by apply same_ret|]. intros v' s3 t3 H3.
      same_bind_with false.
      + unfold as_text. destruct v'; [apply same_raise|by apply same_ret].
      + intros text s4 t4 H4. by apply same_ret.
    - same_bind_with false; [apply same_raise|]. intros v' s3 t3 H3.
      same_bind_with false.
      + unfold as_text. destruct v'; [apply same_raise|by apply same_ret].
      + intros text s4 t4 H4. by apply same_ret. }
  intros targets s2 t2 H2.
  same_bind_with false; [by apply same_write_lines|]. intros _ s3 t3 H3.
  same_bind_with false.
  { apply same_mapM; [|done]. intros ex s4 t4 H4.
    unfold example_get. destruct (ex !! "inputs_plaintext");
      [by apply same_ret|apply same_raise]. }
  intros inputs s4 t4 H4.
  same_bind_with false; [by apply same_write_lines|]. intros _ s5 t5 H5.
  by apply same_ret.
Qed.

Lemma same_eval_task vocab summary_dir kw cached_targets cached_examples
    (task : Task Score) s t :
  sim true s t →
  same_at true
    (eval_task vocab summary_dir kw cached_targets cached_examples task)
    (eval_task vocab summary_dir kw cached_targets cached_examples task) s t.
Proof.
  intros Hst. unfold eval_task, cache_get.
  same_bind_with true.
  { destruct (cached_examples !! name task);
      [by apply same_ret|apply same_raise]. }
  intros ds s1 t1 H1. same_bind_with true.
  { destruct (cached_targets !! name task);
      [by apply same_ret|apply same_raise]. }
  intros targets s2 t2 H2. same_bind_with true.
  { apply same_for_fold; [|done]. intros acc batch s3 t3 H3.
    same_bind_with true.
    { unfold batch_get. destruct (batch !! "inputs");
        [by apply same_ret|apply same_raise]. }
    intros input_ids s4 t4 H4. apply same_self.
    destruct (sim_fields _ _ _ H4) as (Em & _ & _).
    destruct H4 as [Hv4 Ht4]. rewrite Em, <-(Ht4 eq_refl).
    by apply same_ret. }
  intros predictions s3 t3 H3.
  case_bool_decide; [apply same_raise|].
  apply same_self. destruct (sim_fields _ _ _ H3) as (_ & Es & _).
  rewrite Es. same_bind_with true; [by apply same_write_lines|].
  intros _ s4 t4 H4. apply same_for_each; [|done].
  intros metric_fn s5 t5 H5. cbv zeta. apply same_for_each; [|done].
  intros [metric_name metric_value] s6 t6 H6. apply same_self.
  destruct (sim_fields _ _ _ H6) as (_ & Es6 & _). rewrite Es6.
  same_bind_with true; [by apply same_add_scalar|].
  intros _ s7 t7 H7. by apply same_logging_info.
Qed.

Lemma same_eval_none name sl bs summary_dir split kw s t :
  sim false s t →
  same_at true (eval name sl bs PyNone summary_dir split kw)
    (eval name sl bs PyNone summary_dir split kw) s t.
Proof.
  intros Hst. unfold eval. same_bind_with false.
  { destruct (get_mixture_or_task name);
      [by apply same_ret|apply same_raise]. }
  intros mt s1 t1 H1. cbv zeta. same_bind_with false.
  { apply same_for_each; [|done]. intros task s2 t2 H2.
    case_bool_decide; [by apply same_logging_info|by apply same_ret]. }
  intros _ s2 t2 H2. apply same_self.
  destruct (sim_fields _ _ _ H2) as (_ & _ & Ed). rewrite Ed.
  same_bind_with false.
  { apply same_for_fold; [|done]. intros cached task s3 t3 H3.
    by apply same_cache_task. }
  intros cached s3 t3 H3. unfold _eval_current_model.
  same_bind_with true; [apply same_set_training|].
  intros _ s4 t4 H4. apply same_for_each; [|done].
  intros task s5 t5 H5. by apply same_eval_task.
Qed.

(** C6: evaluating the in-memory model twice in a row gives the same outcome
    and writes the same scalars, with the same metric values, both times; and
    neither call has touched the parameters or the step counter. *)
Theorem eval_none_twice name sl bs summary_dir split kw s :
  let first := eval name sl bs PyNone summary_dir split kw s in
  let second := eval name sl bs PyNone summary_dir split kw first.2 in
  first.1 = second.1
  ∧ view first.2 = view s
  ∧ view second.2 = view s
  ∧ ∃ scalars,
      _writer first.2 = _writer s ++ scalars
      ∧ _writer second.2 = _writer first.2 ++ scalars.
Proof.
  intros first second.
  destruct (same_eval_none name sl bs summary_dir split kw s s)
    as (ev0 & _ & Hv & _); [done|].
  fold first in Hv.
  destruct (same_eval_none name sl bs summary_dir split kw s first.2)
    as (ev & Hr & _ & Hv2 & Hw1 & Hw2 & _); [by split|].
  fold first in Hr, Hw1. fold second in Hr, Hv2, Hw2.
  split; [done|]. split; [done|]. split; [congruence|]. by exists ev.
Qed.
End Same.

(** ** Listing the checkpoints *)

Lemma take_while_app_stop {A} (f : A → bool) l x r :
  Forall (λ c, f c = true) l → f x = false →
  take_while f (l ++ x :: r) = l.
Proof.
  intros Hl Hx. induction Hl as [|c l Hc _ IH]; simpl.
  - by rewrite Hx.
  - by rewrite Hc, IH.
Qed.

Lemma take_while_all {A} (f : A → bool) l :
  Forall (λ c, f c = true) l → take_while f l = l.
Proof.
  induction 1 as [|c l Hc _ IH]; simpl; [done|]. by rewrite Hc, IH.
Qed.

(** The expression matches a well-formed name where it starts. *)
Lemma match_here_name digits :
  digits ≠ [] → Forall (λ c, is_digit c = true) digits →
  match_here (model_chars ++ digits ++ ext_chars) = Some digits.
Proof.
  intros Hne Hd. unfold match_here, model_chars.
  rewrite strip_prefix_app.
  change ext_chars with ("."%char :: chars "checkpoint").
  rewrite take_while_app_stop by done.
  destruct digits as [|c digits]; [done|].
  cbn [length digits_backtrack].
  change (S (length digits)) with (length (c :: digits)).
  by rewrite drop_app_length, take_app_length.
Qed.

(** It matches nowhere later in the name: no [m] follows the first. *)
Lemma match_here_inside digits k :
  Forall (λ c, is_digit c = true) digits → (0 < k)%nat →
  match_here (drop k (model_chars ++ digits ++ ext_chars)) = None.
Proof.
  intros Hd Hk. destruct k as [|k]; [lia|].
  change (drop (S k) (model_chars ++ digits ++ ext_chars))
    with (drop k (chars "odel-" ++ digits ++ ext_chars)).
  assert (Hm : Forall (λ c, c ≠ "m"%char) (chars "odel-" ++ digits ++ ext_chars)).
  { apply Forall_app. split; [by repeat constructor|].
    apply Forall_app. split; [|by repeat constructor].
    eapply Forall_impl; [done|]. by intros c Hc ->. }
  apply (Forall_drop _ k) in Hm.
  unfold match_here. destruct (drop k _) as [|c l]; [done|].
  inversion Hm; subst. simpl. unfold ascii_eqb.
  by rewrite bool_decide_eq_false_2.
Qed.

Lemma star_backtrack_hit i l g :
  match_here (drop i l) = Some g → star_backtrack i l = Some g.
Proof. intros E. destruct i; cbn [star_backtrack]; by rewrite E. Qed.

Lemma star_backtrack_miss i l :
  match_here (drop (S i) l) = None →
  star_backtrack (S i) l = star_backtrack i l.
Proof. intros E. cbn [star_backtrack]. by rewrite E. Qed.

Lemma star_backtrack_name pre digits n :
  digits ≠ [] → Forall (λ c, is_digit c = true) digits →
  star_backtrack (length pre + n) (pre ++ model_chars ++ digits ++ ext_chars)
  = Some digits.
Proof.
  intros Hne Hd. induction n as [|n IH].
  - rewrite Nat.add_0_r. apply star_backtrack_hit.
    rewrite drop_app_length. by apply match_here_name.
  - rewrite Nat.add_succ_r, star_backtrack_miss; [done|].
    rewrite <-Nat.add_succ_r, drop_app_add.
    apply match_here_inside; [done|lia].
Qed.

Lemma digit_not_newline c : is_digit c = true → c ≠ newline.
Proof. by intros Hc ->. Qed.

Lemma digit_not_slash c : is_digit c = true → c ≠ slash.
Proof. by intros Hc ->. Qed.

(** [step_regex] on the path of a checkpoint saved at a non-negative step. *)
Lemma step_regex_match_checkpoint dir z :
  0 ≤ z → newline ∉ chars (dir_prefix dir) →
  step_regex_match (checkpoint_path dir z) = Some (py_str z).
Proof.
  intros Hz Hnl. destruct (py_str_nonneg z Hz) as (Hne & Hd & _).
  unfold step_regex_match. rewrite checkpoint_path_eq, !chars_app.
  fold model_chars ext_chars.
  set (pre := chars (dir_prefix dir)). set (digits := chars (py_str z)).
  rewrite take_while_all.
  - rewrite !length_app.
    rewrite (star_backtrack_name pre digits _ Hne Hd).
    cbn [fmap option_fmap option_map]. f_equal. apply of_chars_chars.
  - rewrite !Forall_app. repeat split.
    + apply Forall_forall. intros c Hc. unfold ascii_eqb.
      rewrite bool_decide_eq_false_2; [done|]. by intros ->.
    + by repeat constructor.
    + eapply Forall_impl; [done|]. intros c Hc. unfold ascii_eqb.
      rewrite bool_decide_eq_false_2; [done|]. by apply digit_not_newline.
    + by repeat constructor.
Qed.

Lemma py_str_no_slash z : slash ∉ chars (py_str z).
Proof.
  assert (Hu : ∀ u, slash ∉ chars (NilZero.string_of_uint u)).
  { intros u Hin.
    assert (Hd : Forall (λ c, is_digit c = true) (chars (NilZero.string_of_uint u))).
    { destruct u; try apply (uint_digits (_ u)). by repeat constructor. }
    rewrite Forall_forall in Hd. by apply Hd in Hin. }
  unfold py_str. destruct (Z.to_int z) as [u|u]; simpl; [apply Hu|].
  intros [E|Hin]%elem_of_cons; [done|]. by apply Hu in Hin.
Qed.

(** *** The pattern of a directory that stands for itself *)

Lemma glob_special_not c :
  glob_special c = false →
  ascii_eqb c star = false ∧ ascii_eqb c question = false
  ∧ ascii_eqb c lbracket = false ∧ ascii_eqb c backslash = false.
Proof. unfold glob_special. rewrite !orb_false_iff. tauto. Qed.

(** Ordinary characters are matched one for one. *)
Lemma fnmatch_literal_prefix pre pat l fuel :
  Forall (λ c, glob_special c = false) pre →
  fnmatch (length pre + fuel) (pre ++ pat) (pre ++ l) = fnmatch fuel pat l.
Proof.
  induction 1 as [|c pre Hc _ IH]; [done|].
  destruct (glob_special_not c Hc) as (H1 & H2 & H3 & H4).
  cbn [length Nat.add app fnmatch]. rewrite H1, H2, H3, H4.
  unfold ascii_eqb at 1. rewrite bool_decide_eq_true_2 by done.
  exact IH.
Qed.

(** The star takes a run of characters without a path separator. *)
Lemma fnmatch_star x tail l fuel :
  slash ∉ x → fnmatch fuel tail l = true →
  fnmatch (S (length x) + fuel) (star :: tail) (x ++ l) = true.
Proof.
  intros Hx Hrest. induction x as [|c x IH].
  - cbn [length Nat.add app fnmatch].
    change (ascii_eqb star star) with true. cbv iota. by rewrite Hrest.
  - cbn [length Nat.add app fnmatch].
    change (ascii_eqb star star) with true. cbv iota.
    apply orb_true_iff. right.
    unfold ascii_eqb at 1. rewrite bool_decide_eq_false_2.
    + apply IH. intros Hin. apply Hx. by right.
    + intros ->. apply Hx. by left.
Qed.

Lemma glob_literal_prefix dir :
  glob_literal dir → Forall (λ c, glob_special c = false) (chars (dir_prefix dir)).
Proof.
  intros Hd. unfold dir_prefix. destruct (_ || _); [done|].
  rewrite chars_app. apply Forall_app. split; [done|]. by repeat constructor.
Qed.

(** The pattern of such a directory selects every name of the checkpoint
    form in it. *)
Lemma glob_checkpoint_name dir x :
  glob_literal dir → slash ∉ chars x →
  glob_checkpoint dir (path_join dir (CHECKPOINT_FILE_FORMAT x)) = true.
Proof.
  intros Hd Hx. unfold glob_checkpoint, CHECKPOINT_FILE_FORMAT. cbv zeta.
  rewrite !path_join_model, !chars_app.
  set (pre := chars (dir_prefix dir)).
  change (chars "*") with [star]. fold model_chars ext_chars.
  replace (S (length (pre ++ model_chars ++ [star] ++ ext_chars)
              + length (pre ++ model_chars ++ chars x ++ ext_chars)))
    with (length pre
          + (length model_chars
             + (S (length (chars x))
                + (length ext_chars + S (length pre + 17)))))%nat
    by (rewrite !length_app; simpl; lia).
  rewrite fnmatch_literal_prefix by (by apply glob_literal_prefix).
  rewrite fnmatch_literal_prefix by (by repeat constructor).
  apply fnmatch_star; [done|].
  rewrite <-(app_nil_r ext_chars).
  rewrite fnmatch_literal_prefix by (by repeat constructor).
  reflexivity.
Qed.

Lemma glob_checkpoint_path dir z :
  glob_literal dir → glob_checkpoint dir (checkpoint_path dir z) = true.
Proof. intros Hd. apply glob_checkpoint_name; [done|apply py_str_no_slash]. Qed.

Section Listing.
Context `{External}.

Lemma steps_of_paths dir zs s :
  newline ∉ chars (dir_prefix dir) → Forall (λ z, 0 ≤ z) zs →
  mapM (λ path,
          match step_regex_match path with
          | None =>
              raise (AttributeError
                       "'NoneType' object has no attribute 'group'")
          | Some group1 =>
              match py_int group1 with
              | Some z => mret z
              | None => raise (ValueError "invalid literal for int()")
              end
          end) (checkpoint_path dir <$> zs) s
  = (inr zs, s).
Proof.
  intros Hnl. induction 1 as [|z zs Hz _ IH]; [done|].
  cbn [fmap list_fmap mapM].
  rewrite step_regex_match_checkpoint by done.
  destruct (py_str_nonneg z Hz) as (_ & _ & ->).
  by rewrite ret_bind, bind_run, IH.
Qed.

Lemma paths_of_steps {A B} (P : A → Prop) (f : A → B) (l : list B) :
  Forall (λ p, ∃ z, P z ∧ p = f z) l → ∃ zs, l = f <$> zs ∧ Forall P zs.
Proof.
  induction 1 as [|p l (z & Hz & ->) _ (zs & -> & Hzs)].
  - by exists [].
  - exists (z :: zs). split; [done|]. by constructor.
Qed.

Lemma elem_of_file_names (fs : gmap string File) path :
  path ∈ (map_to_list fs).*1 ↔ is_Some (fs !! path).
Proof.
  rewrite list_elem_of_fmap. split.
  - intros ([p f] & -> & Hin). apply elem_of_map_to_list in Hin. by eexists.
  - intros [f Hf]. exists (path, f). split; [done|].
    by apply elem_of_map_to_list.
Qed.

(** The listing of a directory whose checkpoint-like files are all
    checkpoints saved at non-negative steps. *)
Lemma get_all_checkpoint_steps_listing model_dir s :
  let d := dir_or model_dir (_model_dir s) in
  glob_literal d → newline ∉ chars (dir_prefix d) →
  (∀ path, is_Some (files s !! path) → glob_checkpoint d path = true →
           ∃ z, 0 ≤ z ∧ path = checkpoint_path d z) →
  ∃ result,
    get_all_checkpoint_steps model_dir s = (inr result, s)
    ∧ match result with
      | None =>
          ∀ path, is_Some (files s !! path) → glob_checkpoint d path = false
      | Some steps =>
          steps ≠ [] ∧ Sorted Z.le steps ∧ NoDup steps
          ∧ ∀ z, z ∈ steps ↔ is_Some (files s !! checkpoint_path d z)
      end.
Proof.
  intros d Hlit Hnl Hwf.
  set (cf := filter (λ path, glob_checkpoint d path = true)
               (map_to_list (files s)).*1).
  assert (Hin : ∀ p, p ∈ cf ↔ glob_checkpoint d p = true
                               ∧ is_Some (files s !! p)).
  { intros p. unfold cf. by rewrite list_elem_of_filter, elem_of_file_names. }
  assert (Hnd : NoDup cf).
  { apply NoDup_filter, NoDup_fst_map_to_list. }
  destruct (paths_of_steps (λ z, 0 ≤ z) (checkpoint_path d) cf)
    as (zs & Hcf & Hzs).
  { apply Forall_forall. intros p [Hg Hp]%Hin. destruct (Hwf p Hp Hg) as (z & ? & ?).
    by exists z. }
  unfold get_all_checkpoint_steps. rewrite self_bind, bind_run.
  change (glob_checkpoints (dir_or model_dir (_model_dir s)) s)
    with (@inr Exn _ cf, s).
  cbv iota beta. fold d.
  destruct cf as [|p cf'] eqn:Ecf.
  - exists None. split; [done|]. intros path Hp.
    destruct (glob_checkpoint d path) eqn:Hg; [|done].
    assert (Hx : path ∈ []) by (by apply Hin). by apply elem_of_nil in Hx.
  - rewrite Hcf, bind_run, steps_of_paths by done.
    exists (Some (merge_sort Z.le zs)). split; [done|].
    assert (Hperm := merge_sort_Permutation Z.le zs).
    split; [|split; [|split]].
    + intros E. rewrite E in Hperm. apply Permutation_nil_l in Hperm.
      by subst zs.
    + apply Sorted_merge_sort. apply _.
    + rewrite Hperm. rewrite Hcf in Hnd. by apply NoDup_fmap_1 in Hnd.
    + intros z. rewrite Hperm. split.
      * intros Hz. apply (Hin (checkpoint_path d z)). rewrite Hcf.
        apply list_elem_of_fmap. by exists z.
      * intros Hz. assert (Hz' : checkpoint_path d z ∈ p :: cf').
        { apply Hin. split; [by apply glob_checkpoint_path|done]. }
        rewrite Hcf in Hz'. apply list_elem_of_fmap in Hz' as (z' & E & Hz').
        by apply checkpoint_path_inj in E as ->.
Qed.

Lemma sorted_pair (l : list Z) a b :
  Sorted Z.le l → NoDup l → (∀ z, z ∈ l ↔ z = a ∨ z = b) → a ≠ b →
  l = [Z.min a b; Z.max a b].
Proof.
  intros Hs Hnd Hl Hab.
  apply (Sorted_unique Z.le); [done| |].
  - repeat constructor. lia.
  - apply NoDup_Permutation; [done| |].
    + repeat constructor; [|by intros ?%elem_of_nil].
      intros ?%list_elem_of_singleton. lia.
    + intros z. rewrite Hl, !elem_of_cons, elem_of_nil. lia.
Qed.

Lemma save_checkpoint_run z s :
  save_checkpoint z s
  = (inr (),
     with_files (<[checkpoint_path (_model_dir s) z := Checkpoint (_model s)]>
                   (files s)) s).
Proof. reflexivity. Qed.

(** Two saves into a directory without checkpoints, then the listing. *)
Lemma listing_after_two_saves s s1 s2 :
  glob_literal (_model_dir s) →
  newline ∉ chars (dir_prefix (_model_dir s)) →
  (∀ path, is_Some (files s !! path) →
           glob_checkpoint (_model_dir s) path = false) →
  0 ≤ s1 → 0 ≤ s2 → s1 ≠ s2 →
  ∃ s',
    (save_checkpoint s1;; save_checkpoint s2;; get_all_checkpoint_steps None) s
    = (inr (Some [Z.min s1 s2; Z.max s1 s2]), s').
Proof.
  intros Hlit Hnl Hempty H1 H2 Hne.
  set (d := _model_dir s).
  set (s' := with_files
               (<[checkpoint_path d s2 := Checkpoint (_model s)]>
                  (<[checkpoint_path d s1 := Checkpoint (_model s)]> (files s)))
               s).
  assert (Hlook : ∀ path, is_Some (files s' !! path) →
                          glob_checkpoint d path = true →
                          path = checkpoint_path d s1
                          ∨ path = checkpoint_path d s2).
  { intros path Hp Hg. simpl in Hp.
    destruct (decide (path = checkpoint_path d s2)) as [|N2]; [by right|].
    destruct (decide (path = checkpoint_path d s1)) as [|N1]; [by left|].
    rewrite !lookup_insert_ne in Hp by done.
    apply Hempty in Hp. fold d in Hp. congruence. }
  destruct (get_all_checkpoint_steps_listing None s')
    as (result & Hrun & Hres).
  { done. }
  { done. }
  { intros path Hp Hg. destruct (Hlook path Hp Hg) as [->| ->]; eauto. }
  exists s'. rewrite bind_run, save_checkpoint_run.
  rewrite bind_run, save_checkpoint_run.
  change (get_all_checkpoint_steps None s'
          = (inr (Some [Z.min s1 s2; Z.max s1 s2]), s')).
  rewrite Hrun. do 2 f_equal. simpl in Hres. fold d in Hres.
  destruct result as [steps|].
  - destruct Hres as (_ & Hs & Hnd & Hmem). f_equal.
    apply sorted_pair; [done..| |done].
    intros z. rewrite Hmem. split.
    + intros Hz.
      destruct (Hlook _ Hz (glob_checkpoint_path d z Hlit)) as [E|E];
        apply checkpoint_path_inj in E; auto.
    + intros [-> | ->]; simpl.
      * destruct (decide (checkpoint_path d s1 = checkpoint_path d s2)) as [E|N].
        { by apply checkpoint_path_inj in E. }
        rewrite lookup_insert_ne, lookup_insert_eq by done. by eexists.
      * rewrite lookup_insert_eq. by eexists.
  - exfalso. specialize (Hres (checkpoint_path d s2)).
    rewrite glob_checkpoint_path in Hres by done.
    assert (is_Some (files s' !! checkpoint_path d s2)) as Hx.
    { simpl. rewrite lookup_insert_eq. by eexists. }
    by apply Hres in Hx.
Qed.

(** Where the listing is what one expects: in a model directory whose name
    stands for itself as a pattern and whose files selected by the pattern
    are all checkpoints saved at non-negative steps,
    [get_all_checkpoint_steps] returns [None] when there is no such file
    and otherwise the steps of the files, each once, in ascending order;
    the state is left as it was.  After two saves at distinct steps into
    such a directory without checkpoints the listing is the smaller step
    followed by the larger. *)
Lemma listing_of_plain_directory model_dir s :
  let d := dir_or model_dir (_model_dir s) in
  glob_literal d → newline ∉ chars (dir_prefix d) →
  (∀ path, is_Some (files s !! path) → glob_checkpoint d path = true →
           ∃ z, 0 ≤ z ∧ path = checkpoint_path d z) →
  ∃ result,
    get_all_checkpoint_steps model_dir s = (inr result, s)
    ∧ match result with
      | None =>
          (∀ path, is_Some (files s !! path) → glob_checkpoint d path = false)
          ∧ ∀ s1 s2,
              model_dir = None → 0 ≤ s1 → 0 ≤ s2 → s1 ≠ s2 →
              ∃ s',
                (save_checkpoint s1;; save_checkpoint s2;;
                 get_all_checkpoint_steps None) s
                = (inr (Some [Z.min s1 s2; Z.max s1 s2]), s')
      | Some steps =>
          steps ≠ [] ∧ Sorted Z.le steps ∧ NoDup steps
          ∧ ∀ z, z ∈ steps ↔ is_Some (files s !! checkpoint_path d z)
      end.
Proof.
  intros d Hlit Hnl Hwf.
  destruct (get_all_checkpoint_steps_listing model_dir s Hlit Hnl Hwf)
    as (result & Hrun & Hres).
  exists result. split; [done|]. destruct result as [steps|]; [done|].
  split; [done|]. intros s1 s2 -> H1 H2 Hne.
  by apply listing_after_two_saves.
Qed.
End Listing.

(** ** Prediction *)

Section Batching.
Context {A : Type}.
Implicit Types l : list A.

Lemma chunks_aux_concat n fuel :
  (0 < n)%nat → ∀ l, (length l ≤ fuel)%nat → concat (chunks_aux fuel n l) = l.
Proof.
  intros Hn. induction fuel as [|fuel IH]; intros l Hl.
  - destruct l; [done|]. simpl in Hl. lia.
  - destruct l as [|x l]; [done|].
    cbn [chunks_aux concat]. rewrite IH, take_drop; [done|].
    rewrite length_drop. simpl in Hl. simpl length. lia.
Qed.

Lemma chunks_aux_nonempty n fuel :
  (0 < n)%nat → ∀ l, Forall (λ c, c ≠ []) (chunks_aux fuel n l).
Proof.
  intros Hn. induction fuel as [|fuel IH]; intros l.
  - by destruct l.
  - destruct l as [|x l]; [done|].
    cbn [chunks_aux]. constructor; [|apply IH].
    destruct n; [lia|done].
Qed.



Lemma chunks_concat n l : (0 < n)%nat → concat (chunks n l) = l.
Proof. intros Hn. by apply chunks_aux_concat. Qed.

Lemma chunks_nonempty n l :
  (0 < n)%nat → Forall (λ c, c ≠ []) (chunks n l).
Proof. intros Hn. by apply chunks_aux_nonempty. Qed.
End Batching.

(** *** Lines *)

Lemma split_aux_app cur x rest :
  newline ∉ x → split_aux cur (x ++ rest) = split_aux (reverse x ++ cur) rest.
Proof.
  revert cur. induction x as [|c x IH]; intros cur Hx; [done|].
  simpl. unfold ascii_eqb. rewrite bool_decide_eq_false_2.
  - rewrite IH, reverse_cons, <-app_assoc; [done|].
    intros Hin. apply Hx. by right.
  - intros ->. apply Hx. by left.
Qed.

Lemma join_lines_cons x y l :
  join_lines (x :: y :: l) = x +:+ nl +:+ join_lines (y :: l).
Proof. reflexivity. Qed.

(** Lines without line breaks are read back from the file as written. *)
Lemma split_join_lines lines :
  lines ≠ [] → Forall (λ line, newline ∉ chars line) lines →
  split_lines (join_lines lines) = lines.
Proof.
  intros Hne Hall. unfold split_lines.
  induction Hall as [|x l Hx Hl IH]; [done|]. destruct l as [|y l].
  - change (join_lines [x]) with x.
    rewrite <-(app_nil_r (chars x)), split_aux_app by done.
    cbn [split_aux fmap list_fmap].
    by rewrite app_nil_r, reverse_involutive, of_chars_chars.
  - rewrite join_lines_cons, !chars_app, split_aux_app by done.
    change (chars nl) with [newline]. cbn [app split_aux].
    unfold ascii_eqb at 1. rewrite bool_decide_eq_true_2 by done.
    cbn [fmap list_fmap].
    rewrite app_nil_r, reverse_involutive, of_chars_chars. f_equal.
    by apply IH.
Qed.

Section PredictFacts.
Context `{External}.








(** What [predict] does with no input at all and with a batch size that is
    not positive. *)
Lemma predict_empty_list sl bs output_file spm kw s :
  predict (InputList []) sl bs output_file spm kw s
  = (inl (TypeError "Expected string, got float32"), s).
Proof. reflexivity. Qed.
End PredictFacts.

(** ** Concrete runs *)

(** Closed equations are settled by evaluation. *)
Ltac by_vm :=
  match goal with
  | |- _ = ?y => vm_cast_no_check (@eq_refl _ y)
  end.

Example regex_ex1 :
  step_regex_match "/tmp/hft5/model-1200.checkpoint" = Some "1200".
Proof. reflexivity. Qed.

Example regex_ex2 : step_regex_match "/tmp/model-best.checkpoint" = None.
Proof. reflexivity. Qed.

Example regex_ex3 :
  step_regex_match "/tmp/model-5.checkpoint/model-12.checkpoint" = Some "12".
Proof. reflexivity. Qed.

Example regex_ex4 : step_regex_match "model-12checkpoint" = Some "1".
Proof. reflexivity. Qed.

Example glob_ex1 :
  glob_checkpoint "/tmp/hft5" "/tmp/hft5/model-7.checkpoint" = true
  ∧ glob_checkpoint "/tmp/hft5" "/tmp/hft5/model-7.checkpoint.bak" = false
  ∧ glob_checkpoint "/tmp/hft5" "/tmp/hft5/sub/model-7.checkpoint" = false
  ∧ glob_checkpoint "/tmp/hft5" "/tmp/hft5/model-a/b.checkpoint" = false.
Proof. repeat split; by_vm. Qed.

Example py_str_ex : py_str 10 = "10" ∧ py_str 0 = "0" ∧ py_str (-3) = "-3".
Proof. done. Qed.

Example py_int_ex : py_int "0042" = Some 42 ∧ py_int "" = None.
Proof. done. Qed.

Lemma train_10_4_checkpoints_witness :
  ∃ s' p4 p8,
    train (H := Toy.world) "copy" 10 4 Toy.lengths "train" 2 (λ _, O) None
      Toy.fresh
    = (inr (), s')
    ∧ _step s' = 10
    ∧ files s'
      = <[checkpoint_path "/tmp/hft5" 10 := Checkpoint (_model s')]>
          (<[checkpoint_path "/tmp/hft5" 8 := Checkpoint p8]>
             (<[checkpoint_path "/tmp/hft5" 4 := Checkpoint p4]>
                (<[checkpoint_path "/tmp/hft5" 0
                   := Checkpoint (_model Toy.fresh)]> ∅)))
    ∧ logs s'
      = [LogInfo "Saving checkpoint for step 0";
         LogInfo "Saving checkpoint for step 4";
         LogInfo "Saving checkpoint for step 8";
         LogInfo "Saving final checkpoint for step 10"].
Proof.
  apply (train_10_4_checkpoints (H := Toy.world) "copy" Toy.lengths "train" 2
           (λ _, O) None Toy.fresh Toy.batches).
  - by_vm.
  - intros E. apply (f_equal length) in E. vm_compute in E. discriminate E.
  - apply (bool_decide_unpack (Forall trainable Toy.batches)).
    vm_compute. exact I.
  - reflexivity.
Defined.

Lemma train_without_steps_witness :
  ∃ e,
    train (H := Toy.world) "copy" 0 4 Toy.lengths "train" 2 (λ _, O) None
      Toy.fresh
    = (inl e, with_training true Toy.fresh)
    ∧ (0 = 0 → e = UnboundLocalError "train_step").
Proof.
  apply (train_without_steps (H := Toy.world) "copy" 0 4 Toy.lengths "train" 2
           (λ _, O) None Toy.fresh Toy.batches).
  - by_vm.
  - lia.
Defined.

(** C2 at [steps = 1] and a save interval of 1: the only checkpoint is the one
    taken at step 0 before the update; the counter ends at 1, the parameters
    after the update are in no file, and the listing shows step 0 alone. *)
Theorem train_interval_1_final_state_unsaved :
  let run :=
    train (H := Toy.world) "copy" 1 1 Toy.lengths "train" 2 (λ _, O) None
      Toy.fresh in
  run.1 = inr ()
  ∧ _step run.2 = 1
  ∧ _model run.2 = 1%nat
  ∧ map_to_list (files run.2)
    = [(checkpoint_path "/tmp/hft5" 0, Checkpoint (_model Toy.fresh))]
  ∧ files run.2 !! checkpoint_path "/tmp/hft5" 1 = None
  ∧ (get_all_checkpoint_steps None run.2).1 = inr (Some [0]).
Proof. intros run. repeat split; by_vm. Qed.

(** C4 on a model directory without checkpoints: [checkpoint_steps="all"]
    makes [eval] raise the iteration error over [None], after the targets and
    inputs of the task were cached and written. *)
Theorem eval_all_without_checkpoints_raises :
  (get_all_checkpoint_steps (H := Toy.world) None Toy.fresh).1 = inr None
  ∧ (eval (H := Toy.world) "copy" Toy.lengths 2 (PyStr "all") None
       "validation" () Toy.fresh).1
    = inl (TypeError "'NoneType' object is not iterable").
Proof. split; by_vm. Qed.

Lemma eval_task_checks_counts_witness :
  eval_task (H := Toy.world) "spm.model" "/tmp/out" ()
    {["copy" := Toy.five_targets]} {["copy" := Toy.four_examples]}
    Toy.copy_task Toy.fresh
  = (inl (ValueError "#targets (5) != #predictions (4)"), Toy.fresh).
Proof.
  refine (eval_task_checks_counts (H := Toy.world) "spm.model" "/tmp/out" ()
            {["copy" := Toy.five_targets]} {["copy" := Toy.four_examples]}
            Toy.copy_task Toy.fresh Toy.four_examples Toy.five_targets _ _ _).
  - reflexivity.
  - reflexivity.
  - apply (bool_decide_unpack
             (Forall (λ batch : Batch, is_Some (batch !! "inputs"))
                Toy.four_examples)).
    vm_compute. exact I.
Defined.

Lemma eval_skips_tasks_without_split_witness :
  eval (H := Toy.world) "copy_mix" Toy.lengths 2 PyNone None "test" () Toy.fresh
  = (inr (),
     with_training false
       (with_logs (logs Toy.fresh ++ [skip_notice]) Toy.fresh)).
Proof.
  apply (eval_skips_tasks_without_split (H := Toy.world) "copy_mix" Toy.lengths
           2 None "test" () Toy.fresh Toy.copy_mixture).
  - reflexivity.
  - apply (bool_decide_unpack
             (Forall (λ task : Task Z, "test" ∉ splits task)
                (tasks Toy.copy_mixture))).
    vm_compute. exact I.
Defined.



(** C5 in a model directory whose name holds a bracket expression: after
    saves at steps 3 and 7 both files are there and [load_checkpoint] finds
    each of them, yet the listing and the latest step are [None], as the
    pattern [/tmp/run[1]/model-*.checkpoint] selects files of a directory
    [/tmp/run1] only.  In a directory with a plain name the same two saves
    list as 3 followed by 7. *)
Theorem listing_misses_own_checkpoints :
  let saved :=
    ((save_checkpoint (H := Toy.world) 7;; save_checkpoint 3)
       Toy2.bracketed).2 in
  let plain :=
    ((save_checkpoint (H := Toy.world) 7;; save_checkpoint 3) Toy.fresh).2 in
  _model_dir saved = "/tmp/run[1]"
  ∧ (load_checkpoint 3 None saved).1 = inr ()
  ∧ (load_checkpoint 7 None saved).1 = inr ()
  ∧ (get_all_checkpoint_steps None saved).1 = inr None
  ∧ (get_latest_checkpoint_step None saved).1 = inr None
  ∧ (get_all_checkpoint_steps None plain).1 = inr (Some [3; 7]).
Proof. intros saved plain. repeat split; by_vm. Qed.

(** The listing of a directory with a plain name that holds the checkpoints
    of steps 7 and 3. *)
Example listing_of_plain_directory_example :
  ∃ steps,
    get_all_checkpoint_steps (H := Toy.world) None Toy.saved
    = (inr (Some steps), Toy.saved)
    ∧ Sorted Z.le steps ∧ NoDup steps ∧ steps = [3; 7].
Proof.
  destruct (listing_of_plain_directory (H := Toy.world) None Toy.saved)
    as (result & Hrun & Hres).
  - apply (bool_decide_unpack (glob_literal "/tmp/hft5")). vm_compute. exact I.
  - apply (bool_decide_unpack (newline ∉ chars (dir_prefix "/tmp/hft5"))).
    vm_compute. exact I.
  - intros path Hp _. simpl in Hp.
    apply lookup_insert_is_Some in Hp as [<-|[_ Hp]].
    + exists 7. split; [lia|reflexivity].
    + apply lookup_singleton_is_Some in Hp as <-.
      exists 3. split; [lia|reflexivity].
  - assert (E : result = Some [3; 7]).
    { assert (Hc : (get_all_checkpoint_steps (H := Toy.world) None Toy.saved).1
                   = inr (Some [3; 7])) by by_vm.
      rewrite Hrun in Hc. by injection Hc as <-. }
    subst result. exists [3; 7]. destruct Hres as (_ & Hs & Hnd & _).
    split; [exact Hrun|]. split; [exact Hs|]. split; [exact Hnd|reflexivity].
Qed.

(** A file that only looks like a checkpoint makes the listing fail. *)
Example listing_with_stray_file :
  (get_all_checkpoint_steps (H := Toy.world) None
     (with_files {[ "/tmp/hft5/model-best.checkpoint" := TextFile "" ]}
        Toy.fresh)).1
  = inl (AttributeError "'NoneType' object has no attribute 'group'").
Proof. by_vm. Qed.

(** An empty dataset leaves [train_step] unbound whatever [steps] is. *)
Lemma train_on_empty_dataset `{External} name steps save_steps sl split bs
    optimizer scheduler s :
  get_dataset name sl split bs = inr [] → 0 ≤ steps →
  train name steps save_steps sl split bs optimizer scheduler s
  = (inl (UnboundLocalError "train_step"), with_training true s).
Proof.
  intros Hds Hsteps. unfold train. py_red. rewrite Hds.
  rewrite bool_decide_eq_false_2 by lia. by rewrite cycle_take_nil.
Qed.

(** Two evaluations of the in-memory model in a row, each scoring 2. *)
Example eval_none_twice_example :
  let first :=
    eval (H := Toy.world) "copy" Toy.lengths 2 PyNone None "validation" ()
      Toy.fresh in
  let second :=
    eval (H := Toy.world) "copy" Toy.lengths 2 PyNone None "validation" ()
      first.2 in
  first.1 = inr () ∧ second.1 = inr ()
  ∧ global_step <$> _writer second.2 = [0; 0]
  ∧ tag <$> _writer second.2 = ["eval/copy/accuracy"; "eval/copy/accuracy"].
Proof. intros first second. repeat split; by_vm. Qed.

Example count_mismatch_5_4 :
  count_mismatch 5 4 = "#targets (5) != #predictions (4)".
Proof. by_vm. Qed.
(** ** What the regular expression extracts *)

Lemma take_while_Forall {A} (f : A → bool) l :
  Forall (λ c, f c = true) (take_while f l).
Proof.
  induction l as [|x l IH]; simpl; [done|].
  destruct (f x) eqn:E; [by constructor|done].
Qed.

Lemma take_while_prefix {A} (f : A → bool) l :
  take_while f l = take (length (take_while f l)) l.
Proof.
  induction l as [|x l IH]; simpl; [done|].
  destruct (f x); simpl; [by rewrite <-IH|done].
Qed.

Lemma digits_backtrack_Some k rest g :
  digits_backtrack k rest = Some g →
  ∃ j, (0 < j ≤ k)%nat ∧ g = take j rest.
Proof.
  induction k as [|k IH]; simpl; [done|].
  destruct (regex_tail _).
  - intros [= <-]. exists (S k). split; [lia|done].
  - intros (j & Hj & ->)%IH. exists j. split; [lia|done].
Qed.

Lemma match_here_digits l g :
  match_here l = Some g → g ≠ [] ∧ Forall (λ c, is_digit c = true) g.
Proof.
  unfold match_here. destruct (strip_prefix _ l) as [rest|]; [|done].
  intros (j & Hj & ->)%digits_backtrack_Some.
  pose proof (take_while_Forall is_digit rest) as Hd.
  rewrite take_while_prefix in Hd.
  set (n := length (take_while is_digit rest)) in *.
  assert (Hn : (n ≤ length rest)%nat).
  { unfold n. rewrite take_while_prefix at 1. rewrite length_take. lia. }
  split.
  - intros E. apply (f_equal length) in E. rewrite length_take in E.
    simpl in E. lia.
  - replace (take j rest) with (take j (take n rest))
      by (rewrite take_take; f_equal; lia).
    by apply Forall_take.
Qed.

Lemma star_backtrack_Some i l g :
  star_backtrack i l = Some g → ∃ j, match_here (drop j l) = Some g.
Proof.
  induction i as [|i IH]; cbn [star_backtrack].
  - destruct (match_here (drop 0 l)) eqn:E; [|done].
    intros [= <-]. by exists O.
  - destruct (match_here (drop (S i) l)) eqn:E.
    + intros [= <-]. by exists (S i).
    + apply IH.
Qed.

Lemma digit_cases c :
  is_digit c = true →
  ∀ d, ∃ d', uint_of_char c (Some d) = Some d'.
Proof.
  intros Hc d.
  destruct c as [[] [] [] [] [] [] [] []]; try discriminate Hc; simpl; eauto.
Qed.

Lemma uint_of_digits g :
  Forall (λ c, is_digit c = true) g →
  ∃ u, NilEmpty.uint_of_string (of_chars g) = Some u.
Proof.
  induction 1 as [|c g Hc _ [u IH]]; simpl; [by eexists|].
  rewrite IH. by apply digit_cases.
Qed.

Lemma of_uint_nonneg u : 0 ≤ Z.of_uint u.
Proof. unfold Z.of_uint. apply N2Z.is_nonneg. Qed.

(** Whatever [step_regex] extracts, [int] reads, as a step that is not
    negative. *)
Lemma regex_group_step path group1 :
  step_regex_match path = Some group1 → ∃ z, py_int group1 = Some z ∧ 0 ≤ z.
Proof.
  unfold step_regex_match.
  destruct (star_backtrack _ _) as [g|] eqn:E; [|done].
  intros [= <-]. apply star_backtrack_Some in E as [j E].
  apply match_here_digits in E as [Hne Hd].
  destruct (uint_of_digits g Hd) as [u Hu].
  unfold py_int. rewrite Hu. destruct g; [done|]. simpl.
  eexists. split; [done|]. apply of_uint_nonneg.
Qed.

Lemma regex_group_int path group1 :
  step_regex_match path = Some group1 → ∃ z, py_int group1 = Some z.
Proof.
  unfold step_regex_match.
  destruct (star_backtrack _ _) as [g|] eqn:E; [|done].
  intros [= <-]. apply star_backtrack_Some in E as [j E].
  apply match_here_digits in E as [Hne Hd].
  destruct (uint_of_digits g Hd) as [u Hu].
  unfold py_int. rewrite Hu. destruct g; [done|]. simpl. by eexists.
Qed.

(** X1: format and parse agree.  From the path [save_checkpoint] writes for a
    non-negative step into a directory whose name holds no line break, the
    listing's regular expression and [int] recover that step. *)
Theorem step_of_saved_path dir z :
  0 ≤ z → newline ∉ chars (dir_prefix dir) →
  step_regex_match (checkpoint_path dir z) ≫= py_int = Some z.
Proof.
  intros Hz Hnl. rewrite step_regex_match_checkpoint by done. simpl.
  by destruct (py_str_nonneg z Hz) as (_ & _ & ->).
Qed.

Section Stray.
Context `{External}.

Lemma steps_of_paths_stray (cf : list string) s :
  (∃ path, path ∈ cf ∧ step_regex_match path = None) →
  mapM (λ path,
          match step_regex_match path with
          | None =>
              raise (AttributeError
                       "'NoneType' object has no attribute 'group'")
          | Some group1 =>
              match py_int group1 with
              | Some z => mret z
              | None => raise (ValueError "invalid literal for int()")
              end
          end) cf s
  = (inl (AttributeError "'NoneType' object has no attribute 'group'"), s).
Proof.
  induction cf as [|p cf IH]; intros (path & Hin & Hno).
  - by apply elem_of_nil in Hin.
  - cbn [mapM]. rewrite bind_run.
    destruct (step_regex_match p) as [g|] eqn:Eg; [|done].
    destruct (regex_group_int p g Eg) as [z ->].
    change ((mret z : Py Z) s) with (@inr Exn _ z, s). cbv iota beta.
    rewrite bind_run, IH; [done|].
    apply elem_of_cons in Hin as [->|Hin]; [congruence|]. by exists path.
Qed.

(** X2: one stray file breaks the listing.  In a directory whose name
    stands for itself as a pattern, a file with a plain ASCII name that the
    pattern selects but the regular expression does not match (such as
    [model-best.checkpoint]) makes [get_all_checkpoint_steps] raise the
    attribute error of the failed match, whatever else is there. *)
Theorem listing_fails_on_stray_file model_dir s path :
  glob_literal (dir_or model_dir (_model_dir s)) →
  Forall (λ c, (Ascii.nat_of_ascii c < 128)%nat) (chars path) →
  is_Some (files s !! path) →
  glob_checkpoint (dir_or model_dir (_model_dir s)) path = true →
  step_regex_match path = None →
  get_all_checkpoint_steps model_dir s
  = (inl (AttributeError "'NoneType' object has no attribute 'group'"), s).
Proof.
  intros _ _ Hp Hg Hno.
  set (d := dir_or model_dir (_model_dir s)) in *.
  set (cf := filter (λ path, glob_checkpoint d path = true)
               (map_to_list (files s)).*1).
  assert (Hin : path ∈ cf).
  { apply list_elem_of_filter. split; [done|]. by apply elem_of_file_names. }
  unfold get_all_checkpoint_steps. rewrite self_bind, bind_run.
  change (glob_checkpoints (dir_or model_dir (_model_dir s)) s)
    with (@inr Exn _ cf, s).
  cbv iota beta. fold d.
  destruct cf as [|p cf'] eqn:E; [by apply elem_of_nil in Hin|].
  rewrite bind_run, steps_of_paths_stray; [done|]. by exists path.
Qed.
End Stray.
(** * Further properties *)

(** ** The checkpoint store *)

Lemma foldl_max_spec z zs :
  foldl Z.max z zs ∈ z :: zs ∧ ∀ x, x ∈ z :: zs → x ≤ foldl Z.max z zs.
Proof.
  revert z. induction zs as [|y zs IH]; intros z.
  - simpl. split; [by left|]. intros x ?%list_elem_of_singleton. lia.
  - simpl. destruct (IH (Z.max z y)) as [Hin Hub]. split.
    + apply elem_of_cons in Hin as [E|Hin].
      * rewrite E. destruct (Z.max_spec z y) as [[_ ->]|[_ ->]];
          [right; left|left].
      * by do 2 right.
    + intros x Hx.
      assert (Hm : Z.max z y ≤ foldl Z.max (Z.max z y) zs) by (apply Hub; left).
      apply elem_of_cons in Hx as [->|Hx]; [lia|].
      apply elem_of_cons in Hx as [->|Hx]; [lia|].
      apply Hub. by right.
Qed.

Section Store.
Context `{External}.

(** X3: the file a step is saved under is its own.  After
    [save_checkpoint z2] the file of step [z1] holds the current parameters
    when [z1 = z2] and is what it was otherwise. *)
Theorem save_checkpoint_by_step s z1 z2 :
  files (save_checkpoint z2 s).2 !! checkpoint_path (_model_dir s) z1
  = if decide (z1 = z2) then Some (Checkpoint (_model s))
    else files s !! checkpoint_path (_model_dir s) z1.
Proof.
  rewrite save_checkpoint_run. simpl. destruct (decide (z1 = z2)) as [->|Hne].
  - apply lookup_insert_eq.
  - apply lookup_insert_ne. intros E. by apply checkpoint_path_inj in E.
Qed.

(** X4: a checkpoint saved and loaded again at once.  When the model takes
    back its own state dictionary, [save_checkpoint z] followed by
    [load_checkpoint z] returns with the counter at [z], the parameters
    [load_state_dict] made of the saved ones, and the one file written. *)
Theorem save_then_load z s :
  (load_state_dict (_model s) (_model s)).2 = None →
  ∃ s',
    (save_checkpoint z;; load_checkpoint z None) s = (inr (), s')
    ∧ _step s' = z
    ∧ _model s' = (load_state_dict (_model s) (_model s)).1
    ∧ files s'
      = <[checkpoint_path (_model_dir s) z := Checkpoint (_model s)]> (files s).
Proof.
  intros Hok. rewrite bind_run, save_checkpoint_run.
  unfold load_checkpoint, torch_load, model_load_state_dict.
  py_red. simpl. rewrite lookup_insert_eq. simpl.
  destruct (load_state_dict (_model s) (_model s)) as [p err] eqn:E.
  simpl in Hok. subst err. simpl. eexists. split; [reflexivity|]. done.
Qed.

(** *** What follows from what the listing returned *)

(** The comprehension over the selected paths reads the state only; the
    steps it yields are as many as the paths and none is negative. *)
Lemma steps_of_paths_run (cf : list string) s :
  ∃ r,
    mapM (λ path,
            match step_regex_match path with
            | None =>
                raise (AttributeError
                         "'NoneType' object has no attribute 'group'")
            | Some group1 =>
                match py_int group1 with
                | Some z => mret z
                | None => raise (ValueError "invalid literal for int()")
                end
            end) cf s
    = (r, s)
    ∧ ∀ zs, r = inr zs → length zs = length cf ∧ Forall (λ z, 0 ≤ z) zs.
Proof.
  induction cf as [|p cf (r & IH & Hr)].
  - exists (inr []). split; [done|]. by intros zs [= <-].
  - cbn [mapM]. rewrite bind_run.
    destruct (step_regex_match p) as [g|] eqn:Eg.
    + destruct (regex_group_step p g Eg) as (z & -> & Hz).
      change ((mret z : Py Z) s) with (@inr Exn _ z, s). cbv iota beta.
      rewrite bind_run, IH. destruct r as [e|zs].
      * exists (inl e). split; [done|]. by intros zs.
      * exists (inr (z :: zs)). split; [done|]. intros zs' [= <-].
        destruct (Hr zs eq_refl) as [Hl Hall].
        split; [simpl; by rewrite Hl|by constructor].
    + eexists (inl _). split; [done|]. by intros zs.
Qed.

(** The listing leaves the state alone; a list it returns is never empty
    and holds no negative step; and it returns [None] only when the pattern
    selects no file. *)
Lemma get_all_checkpoint_steps_run model_dir s :
  ∃ r,
    get_all_checkpoint_steps model_dir s = (r, s)
    ∧ (∀ steps, r = inr (Some steps) →
                steps ≠ [] ∧ Forall (λ z, 0 ≤ z) steps)
    ∧ (r = inr None →
       ∀ path, is_Some (files s !! path) →
               glob_checkpoint (dir_or model_dir (_model_dir s)) path
               = false).
Proof.
  set (d := dir_or model_dir (_model_dir s)).
  set (cf := filter (λ path, glob_checkpoint d path = true)
               (map_to_list (files s)).*1).
  unfold get_all_checkpoint_steps. rewrite self_bind, bind_run.
  change (glob_checkpoints (dir_or model_dir (_model_dir s)) s)
    with (@inr Exn _ cf, s).
  cbv iota beta. fold d.
  destruct cf as [|p cf'] eqn:E.
  - exists (inr None). split; [done|]. split; [by intros steps|].
    intros _ path Hp.
    destruct (glob_checkpoint d path) eqn:Hg; [|done].
    assert (Hin : path ∈ cf).
    { apply list_elem_of_filter. split; [done|].
      by apply elem_of_file_names. }
    rewrite E in Hin. by apply elem_of_nil in Hin.
  - destruct (steps_of_paths_run (p :: cf') s) as (r & Hrun & Hr).
    rewrite bind_run, Hrun. destruct r as [e|zs].
    + exists (inl e). split; [done|]. split; [by intros steps|done].
    + exists (inr (Some (merge_sort Z.le zs))). split; [done|].
      split; [|done]. intros steps [= <-].
      destruct (Hr zs eq_refl) as [Hl Hall].
      assert (Hperm := merge_sort_Permutation Z.le zs). split.
      * intros E0. rewrite E0 in Hperm. apply Permutation_nil_l in Hperm.
        subst zs. simpl in Hl. lia.
      * by rewrite Hperm.
Qed.

Lemma get_latest_run model_dir s r :
  get_all_checkpoint_steps model_dir s = (inr r, s) →
  get_latest_checkpoint_step model_dir s
  = (inr (match r with
          | Some (z :: zs) => Some (foldl Z.max z zs)
          | _ => None
          end), s)
  ∨ r = Some [].
Proof.
  intros Hrun. unfold get_latest_checkpoint_step. rewrite bind_run, Hrun.
  destruct r as [[|z zs]|]; [by right|by left..].
Qed.

(** The latest step is the one that is listed and bounds the listed ones. *)
Lemma get_latest_of_listing model_dir s steps m :
  (get_all_checkpoint_steps model_dir s).1 = inr (Some steps) →
  m ∈ steps → (∀ z, z ∈ steps → z ≤ m) →
  get_latest_checkpoint_step model_dir s = (inr (Some m), s) ∧ 0 ≤ m.
Proof.
  intros Hlist Hm Hmax.
  destruct (get_all_checkpoint_steps_run model_dir s) as (r & Hrun & Hr & _).
  rewrite Hrun in Hlist. simpl in Hlist. subst r.
  destruct (Hr steps eq_refl) as [Hne Hpos].
  destruct (get_latest_run model_dir s _ Hrun) as [Hl|?]; [|congruence].
  destruct steps as [|z zs]; [done|].
  destruct (foldl_max_spec z zs) as [Hin Hub].
  assert (foldl Z.max z zs = m) as <-.
  { assert (foldl Z.max z zs ≤ m) by (by apply Hmax).
    assert (m ≤ foldl Z.max z zs) by (by apply Hub). lia. }
  split; [done|]. rewrite Forall_forall in Hpos. by apply Hpos.
Qed.

Lemma get_latest_of_no_listing model_dir s :
  (get_all_checkpoint_steps model_dir s).1 = inr None →
  get_latest_checkpoint_step model_dir s = (inr None, s).
Proof.
  intros Hlist.
  destruct (get_all_checkpoint_steps_run model_dir s) as (r & Hrun & _).
  rewrite Hrun in Hlist. simpl in Hlist. subst r.
  by destruct (get_latest_run model_dir s _ Hrun) as [Hl|?].
Qed.

(** X5: the latest step is the largest listed one.  Whatever the listing
    does, [get_latest_checkpoint_step] does the same: it raises what the
    listing raises, returns [None] when the listing does, and otherwise
    returns a step of the list that bounds every step of the list.  The
    state is left as it was. *)
Theorem latest_step_is_max model_dir s :
  match (get_all_checkpoint_steps model_dir s).1 with
  | inl e => get_latest_checkpoint_step model_dir s = (inl e, s)
  | inr None => get_latest_checkpoint_step model_dir s = (inr None, s)
  | inr (Some steps) =>
      ∃ m, get_latest_checkpoint_step model_dir s = (inr (Some m), s)
           ∧ m ∈ steps ∧ ∀ z, z ∈ steps → z ≤ m
  end.
Proof.
  destruct (get_all_checkpoint_steps_run model_dir s) as (r & Hrun & Hr & _).
  rewrite Hrun. simpl. destruct r as [e|[steps|]].
  - unfold get_latest_checkpoint_step. by rewrite bind_run, Hrun.
  - destruct (Hr steps eq_refl) as [Hne _].
    destruct (get_latest_run model_dir s _ Hrun) as [Hl|?]; [|congruence].
    destruct steps as [|z zs]; [done|].
    destruct (foldl_max_spec z zs) as [Hin Hub].
    exists (foldl Z.max z zs). done.
  - by destruct (get_latest_run model_dir s _ Hrun) as [Hl|?].
Qed.

Lemma load_latest_checkpoint_empty s :
  (get_all_checkpoint_steps None s).1 = inr None →
  load_latest_checkpoint s = (inr (), s).
Proof.
  intros Hlist. unfold load_latest_checkpoint.
  by rewrite bind_run, get_latest_of_no_listing.
Qed.

Lemma load_latest_checkpoint_max s steps m :
  (get_all_checkpoint_steps None s).1 = inr (Some steps) →
  m ∈ steps → (∀ z, z ∈ steps → z ≤ m) →
  load_latest_checkpoint s = load_checkpoint m None s.
Proof.
  intros Hlist Hm Hmax. unfold load_latest_checkpoint.
  destruct (get_latest_of_listing None s steps m Hlist Hm Hmax) as [Hl _].
  by rewrite bind_run, Hl.
Qed.

(** X6: when the listing of its directory returns [None],
    [load_latest_checkpoint] does nothing at all. *)
Theorem load_latest_without_checkpoints s :
  (get_all_checkpoint_steps None s).1 = inr None →
  load_latest_checkpoint s = (inr (), s).
Proof. apply load_latest_checkpoint_empty. Qed.

(** X7: otherwise it loads the checkpoint of the largest step.  When the
    listing returns steps of which [m] is the largest, the file of step [m]
    is a checkpoint and the model accepts the state dictionary stored
    there, the call returns with the counter at [m] and the parameters
    [load_state_dict] made of it; no file is changed. *)
Theorem load_latest_loads_max s steps m sd :
  (get_all_checkpoint_steps None s).1 = inr (Some steps) →
  m ∈ steps → (∀ z, z ∈ steps → z ≤ m) →
  files s !! checkpoint_path (_model_dir s) m = Some (Checkpoint sd) →
  (load_state_dict (_model s) sd).2 = None →
  ∃ s',
    load_latest_checkpoint s = (inr (), s')
    ∧ _step s' = m
    ∧ _model s' = (load_state_dict (_model s) sd).1
    ∧ files s' = files s.
Proof.
  intros Hlist Hm Hmax Hfile Hok.
  rewrite (load_latest_checkpoint_max s steps m) by done.
  unfold load_checkpoint, torch_load, model_load_state_dict.
  py_red. simpl. rewrite Hfile. simpl.
  destruct (load_state_dict (_model s) sd) as [p err] eqn:E.
  simpl in Hok. subst err. simpl. eexists. split; [reflexivity|]. done.
Qed.
End Store.
(** ** More on the training loop *)

Section TrainMore.
Context `{External}.

Lemma save_points_closed save_steps n :
  ∀ i step,
    save_points save_steps i step n
    = (λ k, step + (k - i))
        <$> filter (λ k, k `mod` save_steps = 0)
              ((λ j, i + Z.of_nat j) <$> seq 0 n).
Proof.
  induction n as [|n IH]; intros i step; [done|].
  rewrite save_points_S, IH. cbn [seq fmap list_fmap].
  rewrite <-(fmap_S_seq 0), <-list_fmap_compose.
  replace (i + Z.of_nat 0) with i by lia.
  rewrite filter_cons.
  assert (E : ∀ l : list nat,
            (λ k, step + 1 + (k - (i + 1)))
              <$> filter (λ k, k `mod` save_steps = 0)
                    ((λ j, i + 1 + Z.of_nat j) <$> l)
            = (λ k, step + (k - i))
                <$> filter (λ k, k `mod` save_steps = 0)
                      ((λ j, i + Z.of_nat j) ∘ S <$> l)).
  { intros l. induction l as [|j l IHl]; [done|].
    cbn [fmap list_fmap]. unfold compose at 1.
    replace (i + Z.of_nat (S j)) with (i + 1 + Z.of_nat j) by lia.
    rewrite !filter_cons. case_decide; cbn [fmap list_fmap].
    - rewrite IHl. f_equal. lia.
    - apply IHl. }
  rewrite E. case_bool_decide; case_decide; try done.
  cbn [app fmap list_fmap]. f_equal. lia.
Qed.

(** X8: where [train] saves.  Started at step counter [c], a run of [train]
    that finds a non-empty dataset of trainable batches writes its
    checkpoints, in order, at [c + k] for the multiples [k] of [save_steps]
    below [steps] (counted from the start of this call, not from step 0),
    and last at [c + steps] when [steps - 1] is no such multiple.  Nothing
    else is written and the counter ends at [c + steps]. *)
Theorem train_checkpoint_steps name steps save_steps sl split bs optimizer
    scheduler s ds :
  get_dataset name sl split bs = inr ds → ds ≠ [] → Forall trainable ds →
  1 ≤ steps → save_steps ≠ 0 →
  ∃ s' saves,
    train name steps save_steps sl split bs optimizer scheduler s
    = (inr (), s')
    ∧ _step s' = _step s + steps
    ∧ files s' = insert_checkpoints (_model_dir s) saves (files s)
    ∧ saves.*1
      = ((λ k, _step s + k)
           <$> filter (λ k, k `mod` save_steps = 0)
                 (Z.of_nat <$> seq 0 (Z.to_nat steps)))
        ++ (if bool_decide ((steps - 1) `mod` save_steps ≠ 0)
            then [_step s + steps] else []).
Proof.
  intros Hds Hne Hall Hsteps Hs.
  destruct (train_spec name steps save_steps sl split bs optimizer scheduler
              s ds Hds Hne Hall Hsteps Hs)
    as (s' & saves & Hrun & Hstep & _ & Hsv & Hfiles & _).
  exists s', saves. split; [done|]. split; [done|]. split; [done|].
  rewrite Hsv, save_points_closed. f_equal.
  replace ((λ j, 0 + Z.of_nat j) <$> seq 0 (Z.to_nat steps))
    with (Z.of_nat <$> seq 0 (Z.to_nat steps))
    by (apply list_fmap_ext; intros; lia).
  apply list_fmap_ext. intros. lia.
Qed.

(** X9: a save interval of 0.  With a non-empty dataset and at least one
    step, [train] with [save_steps = 0] raises the division error at the
    first test of the loop: nothing is trained and nothing saved. *)
Theorem train_zero_interval name steps sl split bs optimizer scheduler s ds :
  get_dataset name sl split bs = inr ds → ds ≠ [] → 1 ≤ steps →
  train name steps 0 sl split bs optimizer scheduler s
  = (inl ZeroDivisionError, with_training true s).
Proof.
  intros Hds Hne Hsteps. unfold train. py_red. rewrite Hds.
  rewrite bool_decide_eq_false_2 by lia.
  destruct (Z.to_nat steps) as [|n] eqn:En; [lia|].
  destruct ds as [|b ds']; [done|]. reflexivity.
Qed.

Lemma step_scalars_S c n :
  step_scalars c (S n)
  = [("loss", c); ("step/s", c)] ++ step_scalars (c + 1) n.
Proof.
  unfold step_scalars. cbn [seq mbind list_bind]. rewrite Z.add_0_r.
  f_equal.
  assert (E : ∀ start,
            (seq (S start) n ≫= λ k,
               [("loss", c + Z.of_nat k); ("step/s", c + Z.of_nat k)])
            = (seq start n ≫= λ k,
                 [("loss", c + 1 + Z.of_nat k);
                  ("step/s", c + 1 + Z.of_nat k)])).
  { induction n as [|n IH]; intros start; [done|].
    cbn [seq mbind list_bind]. rewrite <-IH.
    by replace (c + Z.of_nat (S start)) with (c + 1 + Z.of_nat start) by lia. }
  apply E.
Qed.

Lemma train_body_writer save_steps sched ts opt i batch s :
  save_steps ≠ 0 → trainable batch →
  ∃ opt' s',
    train_body save_steps sched (ts, opt) (i, batch) s
    = (inr (Some i, opt'), s')
    ∧ _step s' = _step s + 1
    ∧ (λ sc, (tag sc, global_step sc)) <$> _writer s'
      = ((λ sc, (tag sc, global_step sc)) <$> _writer s)
        ++ [("loss", _step s); ("step/s", _step s)].
Proof.
  intros Hs ([a Ha] & [b Hb] & [c Hc] & [d Hd]).
  unfold train_body, py_mod, batch_get, save_checkpoint. simpl.
  rewrite (bool_decide_eq_false_2 _ Hs).
  py_red. rewrite Ha, Hb, Hc, Hd.
  destruct (bool_decide (i `mod` save_steps = 0)); simpl;
    destruct (model_step _ _ _ _ _ _) as [[p o] l]; simpl;
    eexists _, _; (split; [reflexivity|]); simpl;
    (split; [done|]); by rewrite !fmap_app, <-app_assoc.
Qed.

Lemma train_loop_writer save_steps sched batches :
  save_steps ≠ 0 → Forall trainable batches →
  ∀ i ts opt s, ∃ locals s',
    for_fold (enumerate_from i batches) (ts, opt)
      (train_body save_steps sched) s
    = (inr locals, s')
    ∧ _step s' = _step s + Z.of_nat (length batches)
    ∧ (λ sc, (tag sc, global_step sc)) <$> _writer s'
      = ((λ sc, (tag sc, global_step sc)) <$> _writer s)
        ++ step_scalars (_step s) (length batches).
Proof.
  intros Hs Hall. induction Hall as [|b bs Hb Hbs IH]; intros i ts opt s.
  - exists (ts, opt), s. simpl. rewrite app_nil_r, Z.add_0_r. done.
  - destruct (train_body_writer save_steps sched ts opt i b s Hs Hb)
      as (opt1 & s1 & Hrun & Hstep & Hw).
    destruct (IH (i + 1) (Some i) opt1 s1)
      as (locals & s2 & Hrun2 & Hstep2 & Hw2).
    exists locals, s2. split.
    { change (enumerate_from i (b :: bs))
        with ((i, b) :: enumerate_from (i + 1) bs).
      by rewrite for_fold_cons, Hrun, Hrun2. }
    split; [cbn [length]; lia|].
    cbn [length]. by rewrite Hw2, Hw, <-app_assoc, step_scalars_S, Hstep.
Qed.

(** X10: what [train] reports.  A run of [train] over a non-empty dataset of
    trainable batches adds to the summary writer, for each of its [steps]
    steps in turn, the loss and the speed under the step counter as it was
    before that step: the counters [c], ..., [c + steps - 1] when it started
    at [c]. *)
Theorem train_scalars name steps save_steps sl split bs optimizer scheduler
    s ds :
  get_dataset name sl split bs = inr ds → ds ≠ [] → Forall trainable ds →
  1 ≤ steps → save_steps ≠ 0 →
  ∃ s',
    train name steps save_steps sl split bs optimizer scheduler s
    = (inr (), s')
    ∧ (λ sc, (tag sc, global_step sc)) <$> _writer s'
      = ((λ sc, (tag sc, global_step sc)) <$> _writer s)
        ++ step_scalars (_step s) (Z.to_nat steps).
Proof.
  intros Hds Hne Hall Hsteps Hs.
  set (batches := cycle_take (Z.to_nat steps) ds ds).
  assert (Hlen : length batches = Z.to_nat steps)
    by (by apply cycle_take_length).
  assert (Hall' : Forall trainable batches)
    by (by apply cycle_take_Forall).
  set (opt0 := match scheduler with
               | Some f => f (optimizer (_model s))
               | None => optimizer (_model s)
               end).
  destruct (train_loop_spec save_steps
              (bool_decide (is_Some scheduler)) batches Hs Hall' 0 None opt0
              (with_training true s))
    as (opt' & s1 & saves & Hrun & _).
  destruct (train_loop_writer save_steps
              (bool_decide (is_Some scheduler)) batches Hs Hall' 0 None opt0
              (with_training true s))
    as (locals & s1' & Hrun' & _ & Hw).
  rewrite Hrun in Hrun'. injection Hrun' as _ <-.
  assert (Hlast : match batches with
                  | [] => None
                  | _ => Some (0 + Z.of_nat (length batches) - 1)
                  end = Some (steps - 1)).
  { destruct batches; [simpl in Hlen; lia|]. f_equal. lia. }
  rewrite Hlast in Hrun. rewrite Hlen in Hw. simpl in Hw.
  unfold train. py_red. rewrite Hds.
  rewrite bool_decide_eq_false_2 by lia.
  unfold enumerate. fold batches. simpl. fold opt0.
  unfold mbind, Py_bind in Hrun |- *. rewrite Hrun. simpl.
  unfold py_mod. rewrite (bool_decide_eq_false_2 _ Hs). py_red.
  destruct (bool_decide ((steps - 1) `mod` save_steps ≠ 0)).
  - unfold save_checkpoint. py_red. simpl.
    eexists. split; [reflexivity|]. exact Hw.
  - eexists. split; [reflexivity|]. exact Hw.
Qed.
End TrainMore.

Section TrainEmpty.
Context `{External}.

(** X11: training on an empty dataset.  [itertools.cycle] of a dataset
    without batches yields nothing, so for every [steps >= 0] the loop body
    never runs and the test after the loop finds [train_step] unbound; only
    the training flag has changed. *)
Theorem train_empty_dataset name steps save_steps sl split bs optimizer
    scheduler s :
  get_dataset name sl split bs = inr [] → 0 ≤ steps →
  train name steps save_steps sl split bs optimizer scheduler s
  = (inl (UnboundLocalError "train_step"), with_training true s).
Proof.
  intros Hds Hsteps. unfold train. py_red. rewrite Hds.
  rewrite bool_decide_eq_false_2 by lia. by rewrite cycle_take_nil.
Qed.
End TrainEmpty.
(** ** More on evaluation *)

Section EvalMore.
Context `{External}.

Lemma same_view {A} p (m : Py A) s :
  same_at p m m s s → view (m s).2 = view s.
Proof. by intros (ev & _ & Hv & _). Qed.

Lemma sim_refl p s : sim p s s.
Proof. by split. Qed.

Lemma eval_current_model_view vocab summary_dir kw
    (tasks : list (Task Score)) cached_targets cached_examples s :
  view (_eval_current_model vocab summary_dir kw tasks cached_targets
          cached_examples s).2
  = view s.
Proof.
  apply (same_view true). unfold _eval_current_model.
  eapply (same_bind true); [done|apply same_set_training|].
  intros _ s4 t4 H4. apply same_for_each; [|done].
  intros task s5 t5 H5. by apply same_eval_task.
Qed.

Lemma load_checkpoint_sets_step z model_dir s s' :
  load_checkpoint z model_dir s = (inr (), s') → _step s' = z.
Proof.
  unfold load_checkpoint, torch_load, model_load_state_dict.
  py_red. simpl.
  destruct (files s !! _) as [[sd|c]|]; simpl; try done.
  destruct (load_state_dict _ _) as [p [msg|]]; simpl; [done|].
  by intros [= <-].
Qed.

Lemma run_steps_last (current : Py ()) :
  (∀ s, view (current s).2 = view s) →
  ∀ l s,
    (for_each l (λ z, load_checkpoint z None;; current) s).1 = inr () →
    _step (for_each l (λ z, load_checkpoint z None;; current) s).2
    = default (_step s) (last l).
Proof.
  intros Hcur. induction l as [|z l IH]; intros s; [done|].
  rewrite for_each_cons, bind_run.
  destruct (load_checkpoint z None s) as [[e|[]] s1] eqn:Hl; [done|].
  apply load_checkpoint_sets_step in Hl.
  pose proof (Hcur s1) as Hv.
  destruct (current s1) as [[e|[]] s2]; [done|].
  simpl in Hv. intros Hrun. rewrite (IH s2 Hrun).
  assert (_step s2 = z) as ->.
  { unfold view in Hv. injection Hv as _ -> _. exact Hl. }
  rewrite last_cons. by destruct (last l).
Qed.

Lemma eval_prefix_view name sl bs summary_dir split kw s :
  (eval name sl bs (PyList []) summary_dir split kw s).1 = inr () →
  view (eval name sl bs (PyList []) summary_dir split kw s).2 = view s.
Proof.
  intros _. apply (same_view false). unfold eval.
  eapply (same_bind false); [done| |].
  { destruct (get_mixture_or_task name);
      [by apply same_ret|apply same_raise]. }
  intros mt s1 t1 H1. cbv zeta. eapply (same_bind false); [by eapply sim_view| |].
  { apply same_for_each; [|done]. intros task s2 t2 H2.
    case_bool_decide; [by apply same_logging_info|by apply same_ret]. }
  intros _ s2 t2 H2. apply same_self.
  destruct (sim_fields _ _ _ H2) as (_ & _ & Ed). rewrite Ed.
  eapply (same_bind false); [by eapply sim_view| |].
  { apply same_for_fold; [|done]. intros cached task s3 t3 H3.
    by apply same_cache_task. }
  intros cached s3 t3 H3. by apply same_ret.
Qed.

(** X12: evaluating checkpoints leaves the last one loaded.  When [eval] with
    a list of checkpoint steps returns normally, the wrapper's step counter
    is the last step of the list; it is not put back to what it was.  With
    an empty list it is unchanged. *)
Theorem eval_leaves_last_step name sl bs l summary_dir split kw s :
  (eval name sl bs (PyList l) summary_dir split kw s).1 = inr () →
  _step (eval name sl bs (PyList l) summary_dir split kw s).2
  = default (_step s) (last l).
Proof.
  pose proof (eval_prefix_view name sl bs summary_dir split kw s) as Hpre.
  unfold eval in Hpre |- *.
  destruct (get_mixture_or_task name) as [mt|] eqn:E1; [|done].
  rewrite ret_bind, bind_run in Hpre |- *.
  destruct (for_each _ _ s) as [[e|[]] s1] eqn:E2; [done|].
  rewrite self_bind, bind_run in Hpre |- *.
  destruct (for_fold _ _ _ s1) as [[e|cached] s2] eqn:E3; [done|].
  cbv zeta in Hpre |- *. simpl in Hpre. specialize (Hpre eq_refl).
  intros Hrun. rewrite run_steps_last.
  - unfold view in Hpre. by injection Hpre as _ -> _.
  - intros s0. apply eval_current_model_view.
  - exact Hrun.
Qed.

(** X13: an empty split is reported before anything else.  For a task that
    defines the split and has metric functions, an empty dataset makes
    [eval] raise the error naming split and task, whatever
    [checkpoint_steps] is (even a value of a wrong type); no file has been
    written, no checkpoint loaded and nothing logged. *)
Theorem eval_empty_split task_name sl bs checkpoint_steps summary_dir split kw s
    (t : Task Score) :
  get_mixture_or_task task_name = Some (IsTask t) →
  split ∈ splits t → metric_fns t ≠ [] →
  get_dataset (name t) sl split bs = inr [] →
  eval task_name sl bs checkpoint_steps summary_dir split kw s
  = (inl (ValueError ("The '" +:+ split +:+ "' split of "
                      +:+ name t +:+ " is empty.")), s).
Proof.
  intros Ht Hsplit Hfns Hds. unfold eval. rewrite Ht, ret_bind, bind_run.
  rewrite for_each_cons, bool_decide_eq_false_2 by (by intros ?).
  change ((mret () : Py ()) s) with (@inr Exn _ (), s). cbv iota beta.
  cbn [for_each].
  change ((mret () : Py ()) s) with (@inr Exn _ (), s). cbv iota beta.
  rewrite self_bind, bind_run, filter_cons_True, filter_nil by done.
  cbn [for_fold]. rewrite bind_run. unfold cache_task.
  destruct (metric_fns t) as [|f fs]; [done|].
  rewrite bind_run, Hds. reflexivity.
Qed.

(** X14: a task without metric functions cannot be evaluated.  Such a task is
    passed over when targets are cached but not when the model is run: for a
    task that defines the split, [eval] of the in-memory model raises the
    key error of the missing cache entry, having only switched to inference
    mode. *)
Theorem eval_task_without_metric_fns task_name sl bs summary_dir split kw s
    (t : Task Score) :
  get_mixture_or_task task_name = Some (IsTask t) →
  split ∈ splits t → metric_fns t = [] →
  eval task_name sl bs PyNone summary_dir split kw s
  = (inl (KeyError (name t)), with_training false s).
Proof.
  intros Ht Hsplit Hfns. unfold eval. rewrite Ht, ret_bind, bind_run.
  rewrite for_each_cons, bool_decide_eq_false_2 by (by intros ?).
  change ((mret () : Py ()) s) with (@inr Exn _ (), s). cbv iota beta.
  cbn [for_each].
  change ((mret () : Py ()) s) with (@inr Exn _ (), s). cbv iota beta.
  rewrite self_bind, bind_run, filter_cons_True, filter_nil by done.
  cbn [for_fold]. rewrite bind_run. unfold cache_task. rewrite Hfns.
  py_red. unfold _eval_current_model. cbn [for_each].
  unfold eval_task, cache_get. py_red.
  cbn [fst snd]. rewrite lookup_empty. reflexivity.
Qed.
End EvalMore.
(** ** Construction and fine-tuning *)

(** The file [finetune] asks for when the listing came back empty-handed is
    one the listing would have shown, in a directory whose name stands for
    itself as a pattern. *)
Lemma glob_checkpoint_None dir :
  glob_literal dir →
  glob_checkpoint dir (path_join dir (CHECKPOINT_FILE_FORMAT "None")) = true.
Proof.
  intros Hd. apply glob_checkpoint_name; [done|].
  apply (bool_decide_unpack (slash ∉ chars "None")). reflexivity.
Qed.

Section StoreRuns.
Context `{External}.

Lemma load_checkpoint_run step model_dir s sd :
  files s !! checkpoint_path (dir_or model_dir (_model_dir s)) step
  = Some (Checkpoint sd) →
  (load_state_dict (_model s) sd).2 = None →
  ∃ s',
    load_checkpoint step model_dir s = (inr (), s')
    ∧ _step s' = step
    ∧ _model s' = (load_state_dict (_model s) sd).1
    ∧ files s' = files s
    ∧ logs s'
      = logs s
        ++ [LogInfo ("Loading from "
                     +:+ checkpoint_path (dir_or model_dir (_model_dir s))
                           step)]
    ∧ training s' = training s
    ∧ _model_dir s' = _model_dir s
    ∧ _writer s' = _writer s.
Proof.
  intros Hf Hok. unfold load_checkpoint, torch_load, model_load_state_dict.
  py_red. simpl. rewrite Hf. simpl.
  destruct (load_state_dict (_model s) sd) as [p err] eqn:E.
  simpl in Hok. subst err. simpl. eexists. split; [reflexivity|]. done.
Qed.
End StoreRuns.

Section ConstructFacts.
Context `{External} {Config : Type}.
Variable from_pretrained : string → Result (Params * bool).
Variable from_config : Config → Params * bool.

(** X15: constructing over a directory without checkpoints.  When the
    module can be made of [model_spec] and the listing of the model
    directory returns [None], the constructor returns a wrapper with the
    module's parameters and mode, step counter 0 and an empty summary
    writer; nothing is logged, and no checkpoint is read or written. *)
Theorem init_fresh_directory model_spec model_dir fs lg p mode :
  module_of from_pretrained from_config model_spec = inr (p, mode) →
  (get_all_checkpoint_steps None
     {| _model := p; training := mode; _model_dir := model_dir;
        _step := 0; _writer := []; files := fs; logs := lg |}).1
  = inr None →
  __init__ from_pretrained from_config model_spec model_dir fs lg
  = (inr {| _model := p; training := mode; _model_dir := model_dir;
            _step := 0; _writer := []; files := fs; logs := lg |}, lg).
Proof.
  intros Hmod Hnone. unfold __init__. rewrite Hmod. cbv zeta.
  by rewrite load_latest_checkpoint_empty.
Qed.

(** X16: constructing over a directory with checkpoints resumes from the
    latest.  When the listing of the model directory returns steps of which
    [m] is the largest, the file of step [m] is a checkpoint and the module
    accepts its state dictionary, the constructor returns a wrapper whose
    step counter is [m] and whose parameters are those loaded from that
    file, and logs the one notice of the load. *)
Theorem init_resumes_latest model_spec model_dir fs lg p mode steps m sd :
  module_of from_pretrained from_config model_spec = inr (p, mode) →
  (get_all_checkpoint_steps None
     {| _model := p; training := mode; _model_dir := model_dir;
        _step := 0; _writer := []; files := fs; logs := lg |}).1
  = inr (Some steps) →
  m ∈ steps → (∀ z, z ∈ steps → z ≤ m) →
  fs !! checkpoint_path model_dir m = Some (Checkpoint sd) →
  (load_state_dict p sd).2 = None →
  __init__ from_pretrained from_config model_spec model_dir fs lg
  = (inr {| _model := (load_state_dict p sd).1; training := mode;
            _model_dir := model_dir; _step := m; _writer := []; files := fs;
            logs := lg ++ [LogInfo ("Loading from "
                                    +:+ checkpoint_path model_dir m)] |},
     lg ++ [LogInfo ("Loading from " +:+ checkpoint_path model_dir m)]).
Proof.
  intros Hmod Hlist Hm Hmax Hfile Hok. unfold __init__. rewrite Hmod.
  cbv zeta.
  rewrite (load_latest_checkpoint_max _ steps m) by done.
  unfold load_checkpoint, torch_load, model_load_state_dict.
  py_red. simpl. rewrite Hfile. simpl.
  destruct (load_state_dict p sd) as [p' err] eqn:E.
  simpl in Hok. subst err. reflexivity.
Qed.
End ConstructFacts.

Section FinetuneFacts.
Context `{External}.

(** X17: fine-tuning continues the count of the pretrained checkpoint.  With
    an explicit checkpoint step, [finetune] loads that checkpoint from the
    pretrained directory and trains on: the step counter ends at the
    pretrained step plus [finetune_steps], the checkpoints go to the model's
    own directory, and the first of them holds the pretrained parameters
    under the pretrained step. *)
Theorem finetune_continues_pretrained name finetune_steps pretrained_model_dir
    step save_steps sl split bs optimizer scheduler s ds sd :
  step ≠ -1 →
  files s !! checkpoint_path
               (dir_or (Some pretrained_model_dir) (_model_dir s)) step
  = Some (Checkpoint sd) →
  (load_state_dict (_model s) sd).2 = None →
  get_dataset name sl split bs = inr ds → ds ≠ [] → Forall trainable ds →
  1 ≤ finetune_steps → save_steps ≠ 0 →
  ∃ s' saves,
    finetune name finetune_steps pretrained_model_dir step save_steps sl
      split bs optimizer scheduler s
    = (inr (), s')
    ∧ _step s' = step + finetune_steps
    ∧ _model_dir s' = _model_dir s
    ∧ files s' = insert_checkpoints (_model_dir s) saves (files s)
    ∧ head saves = Some (step, (load_state_dict (_model s) sd).1).
Proof.
  intros Hstep Hf Hok Hds Hne Hall Hsteps Hs. unfold finetune.
  rewrite bool_decide_eq_false_2 by done. rewrite ret_bind, bind_run.
  destruct (load_checkpoint_run step (Some pretrained_model_dir) s sd Hf Hok)
    as (s1 & Hrun & Hst1 & Hm1 & Hf1 & _ & _ & Hd1 & _).
  rewrite Hrun.
  destruct (train_spec name finetune_steps save_steps sl split bs optimizer
              scheduler s1 ds Hds Hne Hall Hsteps Hs)
    as (s' & saves & Htrain & Hst & Hd & _ & Hfiles & Hhead & _).
  exists s', saves. split; [exact Htrain|].
  rewrite Hst, Hd, Hfiles, Hhead, Hst1, Hm1, Hf1, Hd1. done.
Qed.

(** X18: the default checkpoint step means the latest.  When the listing
    of the pretrained directory returns steps of which [m] is the largest,
    [finetune] with [pretrained_checkpoint_step = -1] runs as with
    [pretrained_checkpoint_step = m]. *)
Theorem finetune_default_is_latest name finetune_steps pretrained_model_dir
    steps m save_steps sl split bs optimizer scheduler s :
  (get_all_checkpoint_steps (Some pretrained_model_dir) s).1
  = inr (Some steps) →
  m ∈ steps → (∀ z, z ∈ steps → z ≤ m) →
  finetune name finetune_steps pretrained_model_dir (-1) save_steps sl split
    bs optimizer scheduler s
  = finetune name finetune_steps pretrained_model_dir m save_steps sl split
      bs optimizer scheduler s.
Proof.
  intros Hlist Hm Hmax.
  destruct (get_latest_of_listing (Some pretrained_model_dir) s steps m
              Hlist Hm Hmax) as [Hl Hpos].
  unfold finetune. rewrite bool_decide_eq_true_2 by done.
  rewrite (bool_decide_eq_false_2 (m = -1)) by lia.
  by rewrite !bind_run, Hl.
Qed.

(** X19: fine-tuning from a directory without checkpoints.  With the
    default checkpoint step and a pretrained directory, named without
    pattern characters, whose listing returns [None], [finetune] asks for
    the checkpoint of step [None] and raises the error of the missing file
    [model-None.checkpoint]; it has logged the attempt and trained
    nothing. *)
Theorem finetune_without_pretrained_checkpoint name finetune_steps
    pretrained_model_dir save_steps sl split bs optimizer scheduler s :
  let d := dir_or (Some pretrained_model_dir) (_model_dir s) in
  let path := path_join d "model-None.checkpoint" in
  glob_literal d →
  (get_all_checkpoint_steps (Some pretrained_model_dir) s).1 = inr None →
  finetune name finetune_steps pretrained_model_dir (-1) save_steps sl split
    bs optimizer scheduler s
  = (inl (FileNotFoundError path),
     with_logs (logs s ++ [LogInfo ("Loading from " +:+ path)]) s).
Proof.
  intros d path Hlit Hlist.
  destruct (get_all_checkpoint_steps_run (Some pretrained_model_dir) s)
    as (r & Hrun & _ & Hnone).
  rewrite Hrun in Hlist. simpl in Hlist. subst r.
  specialize (Hnone eq_refl). fold d in Hnone.
  assert (Hl := get_latest_of_no_listing (Some pretrained_model_dir) s).
  rewrite Hrun in Hl. specialize (Hl eq_refl).
  assert (Hmiss : files s !! path = None).
  { destruct (files s !! path) eqn:E; [|done].
    assert (Hx : is_Some (files s !! path)) by (by eexists).
    apply Hnone in Hx. unfold path in Hx.
    change "model-None.checkpoint" with (CHECKPOINT_FILE_FORMAT "None") in Hx.
    by rewrite glob_checkpoint_None in Hx. }
  unfold finetune. rewrite bool_decide_eq_true_2 by done.
  rewrite !bind_run, Hl. unfold load_checkpoint_None, torch_load.
  py_red. simpl.
  change (if bool_decide (pretrained_model_dir = "")
          then _model_dir s else pretrained_model_dir) with d.
  change (path_join d (CHECKPOINT_FILE_FORMAT "None")) with path.
  by rewrite Hmiss.
Qed.
End FinetuneFacts.
(** ** The dataset pipeline *)

(** X20: the masks [_map_fn] adds.  When every output feature of an example is
    a row of tokens and none is named like the mask of another, [_map_fn]
    succeeds; the result holds for each output feature the mask with a 1 at
    every positive token and a 0 elsewhere, under the feature's name followed
    by [_mask], and every other feature as it was. *)
Theorem map_fn_adds_masks output_features :
  ∀ ex : Example,
    (∀ key, key ∈ output_features → ∃ row, ex !! key = Some (Tokens row)) →
    (∀ key key', key ∈ output_features → key' ∈ output_features →
                 key ≠ key' +:+ "_mask") →
    ∃ ex',
      _map_fn output_features ex = inr ex'
      ∧ (∀ key row,
           key ∈ output_features → ex !! key = Some (Tokens row) →
           ex' !! (key +:+ "_mask")
           = Some (Tokens ((λ t, if bool_decide (0 < t) then 1 else 0)
                             <$> row)))
      ∧ (∀ k, (∀ key, key ∈ output_features → k ≠ key +:+ "_mask") →
              ex' !! k = ex !! k).
Proof.
  induction output_features as [|key feats IH]; intros ex Hrows Hnames.
  - exists ex. split; [done|]. split; [|done].
    intros key row Hin. by apply elem_of_nil in Hin.
  - destruct (Hrows key) as [row Hrow]; [by left|].
    cbn [_map_fn]. rewrite Hrow. cbn [mask_of mbind Result_bind].
    set (m := Tokens ((λ t, if bool_decide (0 < t) then 1 else 0) <$> row)).
    set (ex1 := <[key +:+ "_mask" := m]> ex).
    assert (Hsame : ∀ key2, key2 ∈ key :: feats → ex1 !! key2 = ex !! key2).
    { intros key2 Hin. apply lookup_insert_ne. intros E.
      apply (Hnames key2 key); [done|by left|done]. }
    destruct (IH ex1) as (ex' & Hrun & Hmask & Hother).
    { intros key2 Hin. rewrite Hsame by (by right). apply Hrows. by right. }
    { intros key2 key3 H2 H3. apply Hnames; by right. }
    exists ex'. split; [exact Hrun|]. split.
    + intros key0 row0 Hin Hrow0.
      destruct (decide (key0 ∈ feats)) as [Hf|Hf].
      * apply Hmask; [done|]. by rewrite Hsame.
      * apply elem_of_cons in Hin as [->|Hin]; [|done].
        rewrite Hother.
        -- unfold ex1. rewrite lookup_insert_eq. unfold m. congruence.
        -- intros key2 H2 E. apply string_app_inv_tail in E. by subst key2.
    + intros k Hk. rewrite Hother.
      * apply lookup_insert_ne. intros E. apply (Hk key); [by left|done].
      * intros key2 H2. apply Hk. by right.
Qed.

Lemma omap_column (group : list Example) k :
  Forall (λ ex, is_Some (ex !! k)) group →
  length (omap (λ e : Example, e !! k) group) = length group
  ∧ ∀ i, omap (λ e : Example, e !! k) group !! i
         = group !! i ≫= λ e, e !! k.
Proof.
  induction 1 as [|ex group [v Hv] _ [IHl IHi]]; [done|].
  cbn [omap list_omap]. rewrite Hv. split; [simpl; by rewrite IHl|].
  intros [|i]; [done|]. apply IHi.
Qed.

Lemma foldr_min_const {A} (cols : list (list A)) n :
  Forall (λ c, length c = n) cols →
  foldr (λ c m, Nat.min (length c) m) n cols = n.
Proof. induction 1 as [|c cols Hc _ IH]; [done|]. simpl. lia. Qed.

Section StackFacts.
Variable group : list Example.
Variable ks : gset string.
Hypothesis Hdom : Forall (λ ex : Example, dom ex = ks) group.

Lemma stack_lookup k :
  group ≠ [] →
  stack group !! k
  = if decide (k ∈ ks) then Some (omap (λ e : Example, e !! k) group)
    else None.
Proof.
  intros Hne. destruct group as [|ex0 rest] eqn:E; [done|].
  unfold stack. rewrite map_lookup_imap.
  apply Forall_cons in Hdom as [H0 _].
  case_decide as Hk.
  - rewrite <-H0 in Hk. apply elem_of_dom in Hk as [v ->]. done.
  - rewrite <-H0 in Hk. apply not_elem_of_dom in Hk. by rewrite Hk.
Qed.

Lemma column_of_key k :
  k ∈ ks →
  length (omap (λ e : Example, e !! k) group) = length group
  ∧ ∀ i, omap (λ e : Example, e !! k) group !! i
         = group !! i ≫= λ e, e !! k.
Proof.
  intros Hk. apply omap_column. eapply Forall_impl; [exact Hdom|].
  intros ex <-. by apply elem_of_dom.
Qed.

Lemma unbatch_stack_rows :
  group ≠ [] → ks ≠ ∅ →
  match (map_to_list (stack group)).*2 with
  | [] => O
  | col :: cols => foldr (λ c n, Nat.min (length c) n) (length col) cols
  end = length group.
Proof.
  intros Hne Hks.
  assert (Hall : Forall (λ c, length c = length group)
                   (map_to_list (stack group)).*2).
  { apply Forall_forall. intros col Hcol.
    apply list_elem_of_fmap in Hcol as ([k c] & -> & Hin).
    apply elem_of_map_to_list in Hin. rewrite stack_lookup in Hin by done.
    case_decide as Hk; [|done]. injection Hin as <-.
    by apply column_of_key. }
  destruct ((map_to_list (stack group)).*2) as [|col cols] eqn:E.
  - exfalso. apply fmap_nil_inv in E. apply map_to_list_empty_iff in E.
    apply set_choose_L in Hks as [k Hk].
    pose proof (stack_lookup k Hne) as Hl. rewrite E, lookup_empty in Hl.
    by rewrite decide_True in Hl.
  - apply Forall_cons in Hall as [-> Hall]. by apply foldr_min_const.
Qed.

Lemma unbatch_stack : group ≠ [] → ks ≠ ∅ → _unbatch (stack group) = group.
Proof.
  intros Hne Hks. unfold _unbatch. rewrite unbatch_stack_rows by done.
  apply list_eq. intros i. rewrite list_lookup_fmap.
  destruct (decide (i < length group)%nat) as [Hi|Hi].
  - rewrite lookup_seq_lt by done. simpl.
    destruct (lookup_lt_is_Some_2 group i Hi) as [e He]. rewrite He.
    f_equal. apply map_eq. intros k. rewrite lookup_omap, stack_lookup by done.
    assert (Hde : dom e = ks).
    { rewrite Forall_forall in Hdom. apply Hdom.
      by eapply list_elem_of_lookup_2. }
    case_decide as Hk.
    + simpl. destruct (column_of_key k Hk) as [_ ->]. by rewrite He.
    + simpl. rewrite <-Hde in Hk. by apply not_elem_of_dom in Hk.
  - rewrite lookup_seq_ge by lia. simpl.
    symmetry. apply lookup_ge_None. lia.
Qed.
End StackFacts.

(** X21: unbatching undoes batching.  For a non-empty group of examples that
    all have the same, non-empty set of features, the rows [_unbatch] reads
    off the batch are the examples of the group, in order. *)
Theorem unbatch_undoes_batching (group : list Example) (ks : gset string) :
  group ≠ [] → ks ≠ ∅ → Forall (λ ex : Example, dom ex = ks) group →
  _unbatch (stack group) = group.
Proof. intros Hne Hks Hdom. by apply (unbatch_stack group ks). Qed.

Section ChunkFacts.
Context {A : Type}.
Implicit Types l : list A.

Lemma chunks_aux_Forall (P : A → Prop) n fuel :
  ∀ l, Forall P l → Forall (Forall P) (chunks_aux fuel n l).
Proof.
  induction fuel as [|fuel IH]; intros l Hl; [by destruct l|].
  destruct l as [|x l]; [done|]. cbn [chunks_aux]. constructor.
  - by apply Forall_take.
  - apply IH. by apply Forall_drop.
Qed.

Lemma chunks_aux_bound n fuel :
  ∀ l, Forall (λ c, (length c ≤ n)%nat) (chunks_aux fuel n l).
Proof.
  induction fuel as [|fuel IH]; intros l; [by destruct l|].
  destruct l as [|x l]; [done|]. cbn [chunks_aux]. constructor; [|apply IH].
  rewrite length_take. lia.
Qed.

Lemma chunks_aux_length n fuel :
  (0 < n)%nat →
  ∀ l, (length l ≤ fuel)%nat →
       length (chunks_aux fuel n l) = ((length l + n - 1) / n)%nat.
Proof.
  intros Hn. induction fuel as [|fuel IH]; intros l Hl.
  - destruct l; [|simpl in Hl; lia]. simpl.
    symmetry. apply Nat.div_small. lia.
  - destruct l as [|x l].
    + simpl. symmetry. apply Nat.div_small. lia.
    + cbn [chunks_aux].
      transitivity (S (length (chunks_aux fuel n (drop n (x :: l)))));
        [done|].
      rewrite IH by (rewrite length_drop; simpl in *; lia).
      rewrite length_drop.
      assert (1 ≤ length (x :: l))%nat by (simpl; lia).
      generalize dependent (length (x :: l)). intros len _ Hlen.
      destruct (decide (n ≤ len)%nat) as [Hle|Hgt].
      * replace (len + n - 1)%nat with ((len - n + n - 1) + 1 * n)%nat by lia.
        rewrite Nat.div_add by lia. lia.
      * replace (len - n + n - 1)%nat with (n - 1)%nat by lia.
        rewrite (Nat.div_small (n - 1)) by lia.
        apply (Nat.div_unique _ _ 1 (len - 1)); lia.
Qed.
End ChunkFacts.

Lemma unbatch_chunks (cs : list (list Example)) (ks : gset string) :
  ks ≠ ∅ →
  Forall (λ c, c ≠ []) cs →
  Forall (Forall (λ ex : Example, dom ex = ks)) cs →
  _unbatch <$> (stack <$> cs) = cs.
Proof.
  intros Hks Hne. induction Hne as [|c cs Hc _ IH]; [done|].
  intros [Hd Hds]%Forall_cons. cbn [fmap list_fmap].
  rewrite (unbatch_stack c ks) by done. f_equal. by apply IH.
Qed.

Section BatchFacts.
Context `{External}.

(** X22: the batches hold the examples.  When some output feature is
    listed, padding and masking succeed on every example, the results share
    one non-empty set of features and [batch_size] is positive,
    [tokens_to_batches] returns batches whose
    rows, read batch after batch, are those examples in order; there are
    as many batches as [batch_size] goes into the number of examples,
    rounded up, none of them empty and none larger than [batch_size]. *)
Theorem batches_hold_the_examples dataset sequence_length batch_size
    output_features (examples : list Example) (ks : gset string) :
  mapM_result (_map_fn output_features)
    (pack_or_pad sequence_length output_features <$> dataset)
  = inr examples →
  output_features ≠ [] →
  ks ≠ ∅ → Forall (λ ex : Example, dom ex = ks) examples →
  0 < batch_size →
  ∃ batches,
    tokens_to_batches dataset sequence_length batch_size output_features
    = inr batches
    ∧ concat (_unbatch <$> batches) = examples
    ∧ length batches
      = ((length examples + Z.to_nat batch_size - 1)
         / Z.to_nat batch_size)%nat
    ∧ Forall (λ batch,
                (0 < length (_unbatch batch) ≤ Z.to_nat batch_size)%nat)
        batches.
Proof.
  intros Hmap _ Hks Hdom Hbs.
  set (n := Z.to_nat batch_size). assert (Hn : (0 < n)%nat) by lia.
  exists (stack <$> chunks n examples).
  assert (Hun : _unbatch <$> (stack <$> chunks n examples)
                = chunks n examples).
  { apply (unbatch_chunks _ ks); [done|by apply chunks_nonempty|].
    by apply chunks_aux_Forall. }
  split; [|split; [|split]].
  - unfold tokens_to_batches. cbv zeta. rewrite Hmap.
    cbn [mbind Result_bind]. by rewrite bool_decide_eq_false_2 by lia.
  - rewrite Hun. by apply chunks_concat.
  - rewrite length_fmap. by apply chunks_aux_length.
  - apply (Forall_fmap _unbatch (λ c, (0 < length c ≤ n)%nat)).
    rewrite Hun.
    pose proof (chunks_nonempty n examples Hn) as H1.
    pose proof (chunks_aux_bound n (length examples) examples) as H2.
    fold (chunks n examples) in H2.
    rewrite Forall_forall in H1, H2. apply Forall_forall. intros c Hc.
    specialize (H1 c Hc). specialize (H2 c Hc).
    destruct c; [done|]. simpl in *. lia.
Qed.
End BatchFacts.
(** ** Lines written and read *)






Section LinesFacts.
Context `{External}.

(** X23: a file of lines, written and read.  Whether or not the file was
    there before, after [write_lines_to_file] it holds the lines joined by
    line breaks and every other file is as it was; when there is at least
    one line and no line holds a line break, splitting the content at the
    line breaks gives back the lines. *)
Theorem write_lines_read_back lines filename s :
  lines ≠ [] → Forall (λ line, newline ∉ chars line) lines →
  ∃ s' content,
    write_lines_to_file lines filename s = (inr (), s')
    ∧ files s' !! filename = Some (TextFile content)
    ∧ split_lines content = lines
    ∧ ∀ other, other ≠ filename → files s' !! other = files s !! other.
Proof.
  intros Hne Hall. rewrite write_lines_spec. eexists _, _.
  split; [reflexivity|]. simpl. split; [apply lookup_insert_eq|].
  split; [by apply split_join_lines|].
  intros other Ho. by apply lookup_insert_ne.
Qed.

End LinesFacts.

(** ** Concrete runs of the further properties *)

Lemma save_then_load_witness :
  ∃ s' : @Wrapper Toy.world,
    (save_checkpoint (H := Toy.world) 5;; load_checkpoint 5 None) Toy.fresh
    = (inr (), s')
    ∧ _step s' = 5
    ∧ _model s' = O
    ∧ files s' = {[ "/tmp/hft5/model-5.checkpoint" := @Checkpoint Toy.world O ]}.
Proof.
  apply (save_then_load (H := Toy.world) 5 Toy.fresh). reflexivity.
Defined.


Lemma load_latest_without_checkpoints_witness :
  load_latest_checkpoint (H := Toy.world) Toy.fresh = (inr (), Toy.fresh).
Proof.
  apply (load_latest_without_checkpoints (H := Toy.world) Toy.fresh).
  by_vm.
Defined.

Lemma load_latest_loads_max_witness :
  ∃ s' : @Wrapper Toy.world,
    load_latest_checkpoint (H := Toy.world) Toy.saved = (inr (), s')
    ∧ _step s' = 7
    ∧ _model s' = 7%nat
    ∧ files s' = files Toy.saved.
Proof.
  apply (load_latest_loads_max (H := Toy.world) Toy.saved [3; 7] 7 7%nat).
  - by_vm.
  - apply (bool_decide_unpack (7 ∈ [3; 7])). vm_compute. exact I.
  - intros z Hz. apply elem_of_cons in Hz as [->|Hz]; [lia|].
    apply elem_of_cons in Hz as [->|Hz]; [lia|]. by apply elem_of_nil in Hz.
  - reflexivity.
  - reflexivity.
Defined.

Lemma step_of_saved_path_witness :
  step_regex_match (checkpoint_path "/tmp/hft5" 1200) ≫= py_int = Some 1200.
Proof.
  apply (step_of_saved_path "/tmp/hft5" 1200).
  - lia.
  - apply (bool_decide_unpack (newline ∉ chars (dir_prefix "/tmp/hft5"))).
    vm_compute. exact I.
Defined.

Lemma listing_fails_on_stray_file_witness :
  get_all_checkpoint_steps (H := Toy.world) None
    (with_files {[ "/tmp/hft5/model-best.checkpoint" := @TextFile Toy.world "";
                   "/tmp/hft5/model-3.checkpoint" := @Checkpoint Toy.world 3%nat ]}
       Toy.fresh)
  = (inl (AttributeError "'NoneType' object has no attribute 'group'"),
     with_files {[ "/tmp/hft5/model-best.checkpoint" := @TextFile Toy.world "";
                   "/tmp/hft5/model-3.checkpoint" := @Checkpoint Toy.world 3%nat ]}
       Toy.fresh).
Proof.
  apply (listing_fails_on_stray_file (H := Toy.world) None _
           "/tmp/hft5/model-best.checkpoint").
  - apply (bool_decide_unpack
             (Forall (λ c, glob_special c = false) (chars "/tmp/hft5"))).
    vm_compute. exact I.
  - apply (bool_decide_unpack
             (Forall (λ c, (Ascii.nat_of_ascii c < 128)%nat)
                (chars "/tmp/hft5/model-best.checkpoint"))).
    vm_compute. exact I.
  - exists (TextFile ""). apply lookup_insert_eq.
  - by_vm.
  - reflexivity.
Defined.

Lemma train_checkpoint_steps_witness :
  ∃ s' saves,
    train (H := Toy.world) "copy" 6 4 Toy.lengths "train" 2 (λ _, O) None
      (with_step 10 Toy.fresh)
    = (inr (), s')
    ∧ _step s' = 16
    ∧ files s' = insert_checkpoints "/tmp/hft5" saves ∅
    ∧ saves.*1 = [10; 14; 16].
Proof.
  apply (train_checkpoint_steps (H := Toy.world) "copy" 6 4 Toy.lengths
           "train" 2 (λ _, O) None (with_step 10 Toy.fresh) Toy.batches).
  - by_vm.
  - intros E. apply (f_equal length) in E. vm_compute in E. discriminate E.
  - apply (bool_decide_unpack (Forall trainable Toy.batches)).
    vm_compute. exact I.
  - lia.
  - lia.
Defined.

Lemma train_zero_interval_witness :
  train (H := Toy.world) "copy" 3 0 Toy.lengths "train" 2 (λ _, O) None
    Toy.fresh
  = (inl ZeroDivisionError, with_training true Toy.fresh).
Proof.
  apply (train_zero_interval (H := Toy.world) "copy" 3 Toy.lengths "train" 2
           (λ _, O) None Toy.fresh Toy.batches).
  - by_vm.
  - intros E. apply (f_equal length) in E. vm_compute in E. discriminate E.
  - lia.
Defined.

Lemma train_scalars_witness :
  ∃ s',
    train (H := Toy.world) "copy" 2 4 Toy.lengths "train" 2 (λ _, O) None
      (with_step 10 Toy.fresh)
    = (inr (), s')
    ∧ (λ sc, (tag sc, global_step sc)) <$> _writer s'
      = [("loss", 10); ("step/s", 10); ("loss", 11); ("step/s", 11)].
Proof.
  apply (train_scalars (H := Toy.world) "copy" 2 4 Toy.lengths "train" 2
           (λ _, O) None (with_step 10 Toy.fresh) Toy.batches).
  - by_vm.
  - intros E. apply (f_equal length) in E. vm_compute in E. discriminate E.
  - apply (bool_decide_unpack (Forall trainable Toy.batches)).
    vm_compute. exact I.
  - lia.
  - lia.
Defined.

Lemma eval_leaves_last_step_witness :
  _step (eval (H := Toy.world) "copy" Toy.lengths 2 (PyList [7; 3]) None
           "validation" () Toy.saved).2
  = 3.
Proof.
  apply (eval_leaves_last_step (H := Toy.world) "copy" Toy.lengths 2 [7; 3]
           None "validation" () Toy.saved).
  by_vm.
Defined.

Lemma eval_empty_split_witness :
  eval (H := Toy2.world) "empty" Toy.lengths 2 (PyOther "1.5") None
    "validation" () Toy2.fresh
  = (inl (ValueError "The 'validation' split of empty is empty."), Toy2.fresh).
Proof.
  apply (eval_empty_split (H := Toy2.world) "empty" Toy.lengths 2
           (PyOther "1.5") None "validation" () Toy2.fresh Toy2.empty_task).
  - reflexivity.
  - apply (bool_decide_unpack ("validation" ∈ splits Toy2.empty_task)).
    vm_compute. exact I.
  - discriminate.
  - by_vm.
Defined.

Lemma eval_task_without_metric_fns_witness :
  eval (H := Toy2.world) "plain" Toy.lengths 2 PyNone None "validation" ()
    Toy2.fresh
  = (inl (KeyError "plain"), with_training false Toy2.fresh).
Proof.
  apply (eval_task_without_metric_fns (H := Toy2.world) "plain" Toy.lengths 2
           None "validation" () Toy2.fresh Toy2.plain_task).
  - reflexivity.
  - apply (bool_decide_unpack ("validation" ∈ splits Toy2.plain_task)).
    vm_compute. exact I.
  - reflexivity.
Defined.

Lemma init_fresh_directory_witness :
  __init__ (H := Toy.world) Toy2.from_pretrained Toy2.from_config
    (SpecStr "t5-base") "/tmp/hft5" ∅ []
  = (inr Toy.fresh, []).
Proof.
  apply (init_fresh_directory (H := Toy.world) Toy2.from_pretrained
           Toy2.from_config (SpecStr "t5-base") "/tmp/hft5" ∅ [] O false).
  - reflexivity.
  - by_vm.
Defined.

Lemma init_resumes_latest_witness :
  __init__ (H := Toy.world) Toy2.from_pretrained Toy2.from_config
    (SpecConfig ()) "/tmp/hft5" (files Toy.saved) []
  = (inr (@Build_Wrapper Toy.world 7%nat true "/tmp/hft5" 7 []
            (files Toy.saved)
            [LogInfo "Loading from /tmp/hft5/model-7.checkpoint"]),
     [LogInfo "Loading from /tmp/hft5/model-7.checkpoint"]).
Proof.
  apply (init_resumes_latest (H := Toy.world) Toy2.from_pretrained
           Toy2.from_config (SpecConfig ()) "/tmp/hft5" (files Toy.saved) []
           O true [3; 7] 7 7%nat).
  - reflexivity.
  - by_vm.
  - apply (bool_decide_unpack (7 ∈ [3; 7])). vm_compute. exact I.
  - intros z Hz. apply elem_of_cons in Hz as [->|Hz]; [lia|].
    apply elem_of_cons in Hz as [->|Hz]; [lia|]. by apply elem_of_nil in Hz.
  - reflexivity.
  - reflexivity.
Defined.

Lemma finetune_continues_pretrained_witness :
  ∃ (s' : @Wrapper Toy.world) (saves : list (Z * @Params Toy.world)),
    finetune (H := Toy.world) "copy" 3 "/tmp/hft5" 7 2 Toy.lengths "train" 2
      (λ _, O) None Toy2.beside_saved
    = (inr (), s')
    ∧ _step s' = 10
    ∧ _model_dir s' = "/tmp/ft"
    ∧ files s' = insert_checkpoints "/tmp/ft" saves (files Toy.saved)
    ∧ head saves = Some (7, (7%nat : @Params Toy.world)).
Proof.
  apply (finetune_continues_pretrained (H := Toy.world) "copy" 3 "/tmp/hft5" 7
           2 Toy.lengths "train" 2 (λ _, O) None Toy2.beside_saved
           Toy.batches 7%nat).
  - lia.
  - reflexivity.
  - reflexivity.
  - by_vm.
  - intros E. apply (f_equal length) in E. vm_compute in E. discriminate E.
  - apply (bool_decide_unpack (Forall trainable Toy.batches)).
    vm_compute. exact I.
  - lia.
  - lia.
Defined.

Lemma finetune_default_is_latest_witness :
  finetune (H := Toy.world) "copy" 3 "/tmp/hft5" (-1) 2 Toy.lengths "train" 2
    (λ _, O) None Toy2.beside_saved
  = finetune (H := Toy.world) "copy" 3 "/tmp/hft5" 7 2 Toy.lengths "train" 2
      (λ _, O) None Toy2.beside_saved.
Proof.
  apply (finetune_default_is_latest (H := Toy.world) "copy" 3 "/tmp/hft5"
           [3; 7] 7 2 Toy.lengths "train" 2 (λ _, O) None Toy2.beside_saved).
  - by_vm.
  - apply (bool_decide_unpack (7 ∈ [3; 7])). vm_compute. exact I.
  - intros z Hz. apply elem_of_cons in Hz as [->|Hz]; [lia|].
    apply elem_of_cons in Hz as [->|Hz]; [lia|]. by apply elem_of_nil in Hz.
Defined.

Lemma finetune_without_pretrained_checkpoint_witness :
  finetune (H := Toy.world) "copy" 3 "/tmp/pre" (-1) 2 Toy.lengths "train" 2
    (λ _, O) None Toy.fresh
  = (inl (FileNotFoundError "/tmp/pre/model-None.checkpoint"),
     with_logs [LogInfo "Loading from /tmp/pre/model-None.checkpoint"]
       Toy.fresh).
Proof.
  apply (finetune_without_pretrained_checkpoint (H := Toy.world) "copy" 3
           "/tmp/pre" 2 Toy.lengths "train" 2 (λ _, O) None Toy.fresh).
  - apply (bool_decide_unpack
             (Forall (λ c, glob_special c = false) (chars "/tmp/pre"))).
    vm_compute. exact I.
  - by_vm.
Defined.

Lemma map_fn_adds_masks_witness :
  ∃ ex',
    _map_fn ["inputs"; "targets"]
      {[ "inputs" := Tokens [5; 0]; "targets" := Tokens [7; 9; 0] ]}
    = inr ex'
    ∧ ex' !! "inputs_mask" = Some (Tokens [1; 0])
    ∧ ex' !! "targets_mask" = Some (Tokens [1; 1; 0])
    ∧ ex' !! "inputs" = Some (Tokens [5; 0]).
Proof.
  destruct (map_fn_adds_masks ["inputs"; "targets"]
              {[ "inputs" := Tokens [5; 0]; "targets" := Tokens [7; 9; 0] ]})
    as (ex' & Hrun & Hmask & Hother).
  - intros key Hk. apply elem_of_cons in Hk as [->|Hk]; [by eexists|].
    apply elem_of_cons in Hk as [->|Hk]; [by eexists|].
    by apply elem_of_nil in Hk.
  - intros key key' Hk Hk'.
    apply elem_of_cons in Hk as [->|Hk];
      [|apply elem_of_cons in Hk as [->|Hk]; [|by apply elem_of_nil in Hk]];
      (apply elem_of_cons in Hk' as [->|Hk'];
       [|apply elem_of_cons in Hk' as [->|Hk'];
         [|by apply elem_of_nil in Hk']]);
      discriminate.
  - exists ex'. split; [exact Hrun|]. split; [|split].
    + apply (Hmask "inputs" [5; 0]); [by left|reflexivity].
    + apply (Hmask "targets" [7; 9; 0]); [by right; left|reflexivity].
    + rewrite Hother; [reflexivity|]. intros key Hk.
      apply elem_of_cons in Hk as [->|Hk]; [discriminate|].
      apply elem_of_cons in Hk as [->|Hk]; [discriminate|].
      by apply elem_of_nil in Hk.
Defined.

Lemma unbatch_undoes_batching_witness :
  _unbatch (stack [Toy.example "ab" "ab"; Toy.example "cd" "dc"])
  = [Toy.example "ab" "ab"; Toy.example "cd" "dc"].
Proof.
  apply (unbatch_undoes_batching
           [Toy.example "ab" "ab"; Toy.example "cd" "dc"]
           {[ "inputs"; "targets"; "inputs_plaintext"; "targets_plaintext" ]}).
  - discriminate.
  - apply (bool_decide_unpack
             (({[ "inputs"; "targets"; "inputs_plaintext";
                  "targets_plaintext" ]} : gset string) ≠ ∅)).
    vm_compute. exact I.
  - apply (bool_decide_unpack
             (Forall (λ ex : Example,
                        dom ex
                        = ({[ "inputs"; "targets"; "inputs_plaintext";
                              "targets_plaintext" ]} : gset string))
                [Toy.example "ab" "ab"; Toy.example "cd" "dc"])).
    vm_compute. exact I.
Defined.

Lemma batches_hold_the_examples_witness :
  ∃ batches,
    tokens_to_batches (H := Toy.world) Toy2.three_examples Toy.lengths 2
      ["inputs"; "targets"]
    = inr batches
    ∧ concat (_unbatch <$> batches) = Toy2.masked
    ∧ length batches = ((length Toy2.masked + 2 - 1) / 2)%nat
    ∧ Forall (λ batch, (0 < length (_unbatch batch) ≤ 2)%nat) batches.
Proof.
  apply (batches_hold_the_examples (H := Toy.world) Toy2.three_examples
           Toy.lengths 2 ["inputs"; "targets"] Toy2.masked Toy2.features).
  - by_vm.
  - discriminate.
  - apply (bool_decide_unpack (Toy2.features ≠ ∅)). vm_compute. exact I.
  - apply (bool_decide_unpack
             (Forall (λ ex : Example, dom ex = Toy2.features) Toy2.masked)).
    vm_compute. exact I.
  - lia.
Defined.

Lemma write_lines_read_back_witness :
  ∃ s' content,
    write_lines_to_file (H := Toy.world) ["a: x"; ""; "b"] "/tmp/out.txt"
      Toy.fresh
    = (inr (), s')
    ∧ files s' !! "/tmp/out.txt" = Some (TextFile content)
    ∧ split_lines content = ["a: x"; ""; "b"]
    ∧ ∀ other, other ≠ "/tmp/out.txt" →
               files s' !! other = files Toy.fresh !! other.
Proof.
  apply (write_lines_read_back (H := Toy.world) ["a: x"; ""; "b"]
           "/tmp/out.txt" Toy.fresh).
  - discriminate.
  - apply (bool_decide_unpack
             (Forall (λ line, newline ∉ chars line) ["a: x"; ""; "b"])).
    vm_compute. exact I.
Defined.


Lemma train_empty_dataset_witness :
  train (H := Toy2.world) "empty" 1000 4 Toy.lengths "validation" 2 (λ _, O)
    None Toy2.fresh
  = (inl (UnboundLocalError "train_step"), with_training true Toy2.fresh).
Proof.
  apply (train_empty_dataset (H := Toy2.world) "empty" 1000 4 Toy.lengths
           "validation" 2 (λ _, O) None Toy2.fresh).
  - by_vm.
  - lia.
Defined.
